(** * Deliberate-Sessions: the session entity, the cookie store and the
      session handlers of [src/src/Session.ts] and
      [src/src/stores/CookieStore.ts], embedded as Rocq functions.

    The session payload is a JavaScript object whose reserved fields
    ([_flash], [_accessed], [_expire], [_delete]) live next to the user's
    keys, so it is modelled as an untyped object: a list of own properties
    in insertion order.  The handlers are effectful (store, cookies, clock,
    identifier generator); they are written in a small state-and-exception
    monad over an explicit [World]. *)

From Stdlib Require Import ZArith List Bool Ascii.
From Stdlib Require Import DecimalFacts DecimalPos DecimalZ.
From stdpp Require Import gmap strings list fin_maps.
Import ListNotations.

Local Open Scope string_scope.
Local Open Scope Z_scope.
Local Set Warnings "-register-all".

(** ** JavaScript values *)

(** Numbers carried by a session: the integers, plus the three values that
    are numbers for the language but have no JSON text. *)
Inductive number : Type :=
| NInt (z : Z)
| NNaN
| NInfinity (negative : bool).

(** [VNative] is a member inherited from [Object.prototype] (a built-in
    function, or the prototype itself for [__proto__]); it is what reading
    such a key on a plain object yields. *)
Inductive value : Type :=
| VUndef
| VNull
| VBool (b : bool)
| VNum (n : number)
| VStr (s : string)
| VObj (o : list (string * value))
| VNative (name : string).

Definition obj : Type := list (string * value).

(** ToBoolean, as used by [!x], [x ? a : b] and [if (x)]. *)
Definition truthy (v : value) : bool :=
  match v with
  | VUndef | VNull => false
  | VBool b => b
  | VNum (NInt z) => negb (z =? 0)
  | VNum NNaN => false
  | VNum (NInfinity _) => true
  | VStr s => negb (String.eqb s "")
  | VObj _ | VNative _ => true
  end.

(** ** Plain objects

    Every object here is a plain one: its prototype is [Object.prototype].
    Replacing the prototype (an assignment of an object or of null to
    [__proto__]) is outside this model. *)

Definition Object_prototype_keys : list string :=
  [ "constructor"; "__defineGetter__"; "__defineSetter__"; "hasOwnProperty";
    "__lookupGetter__"; "__lookupSetter__"; "isPrototypeOf";
    "propertyIsEnumerable"; "toString"; "valueOf"; "__proto__";
    "toLocaleString" ].

Definition inherited (k : string) : bool :=
  existsb (String.eqb k) Object_prototype_keys.

(** The own property [k] of [o], if there is one. *)
Fixpoint own (o : obj) (k : string) : option value :=
  match o with
  | [] => None
  | (k', v) :: rest => if String.eqb k k' then Some v else own rest k
  end.

(** [k in o] *)
Definition js_in (k : string) (o : obj) : bool :=
  match own o k with
  | Some _ => true
  | None => inherited k
  end.

(** [o[k]] *)
Definition js_get (o : obj) (k : string) : value :=
  match own o k with
  | Some v => v
  | None => if inherited k then VNative k else VUndef
  end.

(** Overwrite the own property [k], keeping its place, or add it last. *)
Fixpoint put (o : obj) (k : string) (v : value) : obj :=
  match o with
  | [] => [(k, v)]
  | (k', v') :: rest =>
      if String.eqb k k' then (k', v) :: rest else (k', v') :: put rest k v
  end.

(** [o[k] = v] reaches the setter of [Object.prototype] and gives [o]
    another prototype: the key is [__proto__], [o] has no own property of
    that name, and [v] is an object or null.  (The setter ignores any
    other value.) *)
Definition replaces_prototype (o : obj) (k : string) (v : value) : bool :=
  String.eqb k "__proto__"
  && match own o k with Some _ => false | None => true end
  && match v with VObj _ | VNative _ | VNull => true | _ => false end.

(** [o[k] = v].  An own property is overwritten; otherwise the key
    [__proto__] reaches the accessor of [Object.prototype], which adds no
    own property, and any other key is added.  The own properties are
    those of the source in every case; what [o] inherits afterwards is
    followed only where [replaces_prototype] is false. *)
Definition js_set (o : obj) (k : string) (v : value) : obj :=
  match own o k with
  | Some _ => put o k v
  | None => if String.eqb k "__proto__" then o else put o k v
  end.

(** [delete o[k]] *)
Fixpoint js_delete (o : obj) (k : string) : obj :=
  match o with
  | [] => []
  | (k', v) :: rest =>
      if String.eqb k k' then js_delete rest k else (k', v) :: js_delete rest k
  end.

(** ** The session entity *)

Record Session : Type := mkSession { sid : string; data : obj }.

(** The methods that touch [this.data['_flash']] fail when that field does
    not hold a mapping: with [undefined] or [null] there the source raises
    a TypeError; other non-mapping values are not followed further.  Both
    are [None]. *)
Definition flash_of (d : obj) : option obj :=
  match js_get d "_flash" with
  | VObj fl => Some fl
  | _ => None
  end.

(** [get(key)]: the value read and the session afterwards. *)
Definition get (key : string) (s : Session) : option (value * Session) :=
  if js_in key (data s) then Some (js_get (data s) key, s)
  else
    match flash_of (data s) with
    | Some fl =>
        Some (js_get fl key,
              mkSession (sid s) (put (data s) "_flash" (VObj (js_delete fl key))))
    | None => None
    end.

(** [set(key, value)] *)
Definition set (key : string) (v : value) (s : Session) : Session :=
  match v with
  | VNull | VUndef => mkSession (sid s) (js_delete (data s) key)
  | _ => mkSession (sid s) (js_set (data s) key v)
  end.

(** [flash(key, value)] *)
Definition flash (key : string) (v : value) (s : Session) : option Session :=
  match flash_of (data s) with
  | Some fl => Some (mkSession (sid s) (put (data s) "_flash" (VObj (js_set fl key v))))
  | None => None
  end.

(** [has(key)] *)
Definition has (key : string) (s : Session) : option bool :=
  if js_in key (data s) then Some true
  else
    match flash_of (data s) with
    | Some fl => Some (js_in key fl)
    | None => None
    end.

(** [deleteSession()] on the entity: only marks the data. *)
Definition deleteSession (s : Session) : Session :=
  mkSession (sid s) (js_set (data s) "_delete" (VBool true)).

(** ** The world the handlers act on *)

(** Every call the handlers make on the store or on the cookie accessor,
    in order. *)
Inductive event : Type :=
| StoreGet (id : string)
| StoreCreate (id : string) (d : obj)
| StorePersist (id : string) (d : obj)
| StoreDelete (id : string)
| CookieGet (name : string)
| CookieSet (name : string) (v : string)
| CookieDelete (name : string).

(** [ticks] counts the readings of the clock taken so far and [minted] the
    identifiers generated so far. *)
Record World : Type := mkWorld {
  entries : gmap string obj;
  jar : gmap string string;
  ticks : nat;
  minted : nat;
  trace : list event
}.

Inductive outcome (A : Type) : Type :=
| Return (a : A)
| Throw.
Arguments Return {A} a.
Arguments Throw {A}.

Definition M (A : Type) : Type := World -> outcome A * World.

Definition ret {A : Type} (a : A) : M A := fun w => (Return a, w).

Definition throw {A : Type} : M A := fun w => (Throw, w).

(** A computation that leaves the world alone. *)
Definition lift {A : Type} (r : outcome A) : M A := fun w => (r, w).

Definition bind {A B : Type} (m : M A) (f : A -> M B) : M B :=
  fun w =>
    match m w with
    | (Return a, w') => f a w'
    | (Throw, w') => (Throw, w')
    end.

Declare Scope session_scope.
Delimit Scope session_scope with session.
Notation "x <- m ;; k" := (bind m (fun x => k))
  (at level 100, m at next level, right associativity) : session_scope.
Notation "m ;;; k" := (bind m (fun _ => k))
  (at level 100, right associativity) : session_scope.
Local Open Scope session_scope.

Definition emit (e : event) : M unit :=
  fun w => (Return tt,
            mkWorld (entries w) (jar w) (ticks w) (minted w) (trace w ++ [e])).

Definition with_entries (f : gmap string obj -> gmap string obj) : M unit :=
  fun w => (Return tt,
            mkWorld (f (entries w)) (jar w) (ticks w) (minted w) (trace w)).

Definition with_jar (f : gmap string string -> gmap string string) : M unit :=
  fun w => (Return tt,
            mkWorld (entries w) (f (jar w)) (ticks w) (minted w) (trace w)).

(** *** The cookie accessor

    The [Cookies] type comes from [deps.ts], which is the host
    framework's; the spec describes it as "an abstract capability for
    reading/writing/deleting named values with transport options".  The
    options are not represented. *)
Module Cookies.

(** Modelled from the spec: [get(name, options)] of the cookie accessor,
    the value held under the name, or undefined. *)
Definition get (name : string) : M (option string) :=
  emit (CookieGet name) ;;; fun w => (Return (jar w !! name), w).

(** Modelled from the spec: [set(name, value, options)] of the cookie
    accessor. *)
Definition set (name v : string) : M unit :=
  emit (CookieSet name v) ;;; with_jar (insert name v).

(** Modelled from the spec: [delete(name, options)] of the cookie
    accessor. *)
Definition delete (name : string) : M unit :=
  emit (CookieDelete name) ;;; with_jar (base.delete name).

End Cookies.

(** *** The keyed store

    [stores/Store.ts] is an interface and any implementation may sit
    behind it; the contract the spec gives for it is followed.  The store
    holds its own copy of the data: a session entity owns its data
    exclusively. *)
Module Store.

(** Modelled from the spec: [createSession(id, data)] of the Store
    interface, "stores data under id". *)
Definition createSession (id : string) (d : obj) : M unit :=
  emit (StoreCreate id d) ;;; with_entries (insert id d).

(** Modelled from the spec: [getSessionById(id)] of the Store interface,
    "returns the stored data or a not found signal". *)
Definition getSessionById (id : string) : M (option obj) :=
  emit (StoreGet id) ;;; fun w => (Return (entries w !! id), w).

(** Modelled from the spec: [persistSessionData(id, data)] of the Store
    interface, "fully replaces the stored value for id". *)
Definition persistSessionData (id : string) (d : obj) : M unit :=
  emit (StorePersist id d) ;;; with_entries (insert id d).

(** Modelled from the spec: [deleteSession(id)] of the Store interface,
    "removes the entry; idempotent". *)
Definition deleteSession (id : string) : M unit :=
  emit (StoreDelete id) ;;; with_entries (base.delete id).

End Store.

(** The two kinds of backing store the handlers distinguish with
    [store instanceof CookieStore]. *)
Record CookieStoreConfig : Type := mkCookieStore {
  encryptionKey : string;
  sessionDataCookieName : string
}.

Inductive Backing : Type :=
| Keyed
| CookieEmbedded (cs : CookieStoreConfig).

(** A cookie value that passes [if (!s) return null]: there, and not the
    empty string. *)
Definition present (c : option string) : option string :=
  match c with
  | Some s => if String.eqb s "" then None else Some s
  | None => None
  end.

(** [expiration ? ... : null] on [number | null | undefined]. *)
Definition window (expiration : option Z) : option Z :=
  match expiration with
  | Some n => if n =? 0 then None else Some n
  | None => None
  end.

(** The time values a [Date] can hold: within 8.64e15 ms of the epoch.
    A [Date] made from any other number is invalid. *)
Definition time_value (t : Z) : bool := Z.abs t <=? 8640000000000000.

(** *** Objects as primitives

    [new Date(v)] turns an object [v] into a primitive first
    (OrdinaryToPrimitive, hint number): it reads [valueOf], then
    [toString], calls the one it finds when that is a function, and takes
    the first result that is not an object; when neither gives one it
    raises a TypeError.  The functions there are in this model are the
    members of [Object.prototype]; they are called on the object, without
    arguments. *)

(** The function a value is, if it is one: the prototype itself is an
    object that cannot be called. *)
Definition callable (v : value) : option string :=
  match v with
  | VNative f => if inherited f && negb (String.eqb f "__proto__") then Some f else None
  | _ => None
  end.

(** [f.call(o)] for the members of [Object.prototype] other than
    [toLocaleString].  [valueOf] returns the object; [constructor], which
    is [Object], returns a new object; [hasOwnProperty] and
    [propertyIsEnumerable] look for an own property named by their
    missing argument, which reads ["undefined"]; [__lookupGetter__] and
    [__lookupSetter__] find no accessor; [__defineGetter__] and
    [__defineSetter__] raise a TypeError, their second argument being no
    function. *)
Definition call_member (f : string) (o : obj) : outcome value :=
  if String.eqb f "valueOf" then Return (VObj o)
  else if String.eqb f "toString" then Return (VStr "[object Object]")
  else if String.eqb f "constructor" then Return (VObj [])
  else if String.eqb f "hasOwnProperty" || String.eqb f "propertyIsEnumerable" then
    Return (VBool match own o "undefined" with Some _ => true | None => false end)
  else if String.eqb f "isPrototypeOf" then Return (VBool false)
  else if String.eqb f "__lookupGetter__" || String.eqb f "__lookupSetter__" then
    Return VUndef
  else Throw.

(** [toLocaleString] calls the [toString] the object has at that time: a
    TypeError when that is no function, and no end to it (a RangeError)
    when it is [toLocaleString] again. *)
Definition call_native (f : string) (o : obj) : outcome value :=
  if String.eqb f "toLocaleString" then
    match callable (js_get o "toString") with
    | Some g => if String.eqb g "toLocaleString" then Throw else call_member g o
    | None => Throw
    end
  else call_member f o.

Definition to_primitive (o : obj) : outcome value :=
  let try (name : string) (otherwise : outcome value) : outcome value :=
    match callable (js_get o name) with
    | Some f =>
        match call_native f o with
        | Return (VObj _) | Return (VNative _) => otherwise
        | r => r
        end
    | None => otherwise
    end in
  try "valueOf" (try "toString" Throw).

(** The runtime the module runs on: successive readings of the clock in
    milliseconds, the identifier generator, the two conversions of [Date],
    the JSON codec and the cipher of [crypto.ts].
    [None] stands for NaN in [Date_parse] and for an exception in
    [JSON_parse] and [decryptCryptoJSAES].  [toISOString] is the text of
    a time value; the handlers reach it through [Date_toISOString],
    which raises the RangeError of an invalid [Date]. *)
Class Runtime : Type := {
  Date_now : nat -> Z;
  nanoid : nat -> string;
  toISOString : Z -> string;
  Date_parse : string -> option Z;
  JSON_stringify : value -> string;
  JSON_parse : string -> option value;
  encryptCryptoJSAES : string -> string -> string;
  decryptCryptoJSAES : string -> string -> option string
}.

(** The configuration captured by [initSessionsHandlers]. *)
Record Config : Type := mkConfig {
  store : Backing;
  expireAfterSeconds : option Z;
  sessionCookieName : string
}.

Section Handlers.

Context {rt : Runtime}.

Definition now : M Z :=
  fun w => (Return (Date_now (ticks w)),
            mkWorld (entries w) (jar w) (S (ticks w)) (minted w) (trace w)).

Definition mint : M string :=
  fun w => (Return (nanoid (minted w)),
            mkWorld (entries w) (jar w) (ticks w) (S (minted w)) (trace w)).

(** [new Date(t).toISOString()]: a RangeError when [t] is no time
    value. *)
Definition Date_toISOString (t : Z) : M string :=
  if time_value t then ret (toISOString t) else throw.

(** [new Date(v).getTime()], [None] for NaN: an object is first turned
    into a primitive, which may throw; then a string is parsed, a number
    is a time value when within 8.64e15 ms of the epoch, a boolean or
    null is converted to a number, undefined is not a date.  The
    prototype object reads as a plain object without properties, and a
    function as its source text, which is no date. *)
Definition Date_getTime (v : value) : outcome (option Z) :=
  let of_primitive (p : value) : option Z :=
    match p with
    | VStr s => Date_parse s
    | VNum (NInt z) => if time_value z then Some z else None
    | VBool b => Some (if b then 1 else 0)
    | VNull => Some 0
    | _ => None
    end in
  match v with
  | VObj o =>
      match to_primitive o with
      | Return p => Return (of_primitive p)
      | Throw => Throw
      end
  | VNative f =>
      if String.eqb f "__proto__" then Return (Date_parse "[object Object]")
      else Return None
  | p => Return (of_primitive p)
  end.

(** *** [CookieStore.ts] *)

Definition CookieStore_getSessionFromCookie (cs : CookieStoreConfig) : M value :=
  sessionDataString <- Cookies.get (sessionDataCookieName cs) ;;
  match present sessionDataString with
  | None => ret VNull
  | Some s =>
      match decryptCryptoJSAES s (encryptionKey cs) with
      | Some decryptedCookie =>
          match JSON_parse decryptedCookie with
          | Some v => ret v
          | None => ret VNull
          end
      | None => ret VNull
      end
  end.

Definition CookieStore_createSession (cs : CookieStoreConfig) (initialData : obj) : M unit :=
  Cookies.set (sessionDataCookieName cs)
    (encryptCryptoJSAES (JSON_stringify (VObj initialData)) (encryptionKey cs)).

Definition CookieStore_deleteSession (cs : CookieStoreConfig) : M unit :=
  Cookies.delete (sessionDataCookieName cs).

Definition CookieStore_persistSessionData (cs : CookieStoreConfig) (d : obj) : M unit :=
  Cookies.set (sessionDataCookieName cs)
    (encryptCryptoJSAES (JSON_stringify (VObj d)) (encryptionKey cs)).

(** *** [Session.ts]: the private helpers *)

Variable cfg : Config.

(** [sessionValid]: the clock is read only when [_expire] is neither
    null nor undefined, and before the [Date] is made. *)
Definition sessionValid (sessionData : obj) : M bool :=
  match js_get sessionData "_expire" with
  | VUndef | VNull => ret true
  | e =>
      t <- now ;;
      limit <- lift (Date_getTime e) ;;
      ret (match limit with
           | Some limit => t <? limit
           | None => false
           end)
  end.

(** The value of [expiration ? new Date(Date.now() + expiration * 1000)
    .toISOString() : null]. *)
Definition expiry (expiration : option Z) : M value :=
  match window expiration with
  | Some n =>
      t <- now ;;
      s <- Date_toISOString (t + n * 1000) ;;
      ret (VStr s)
  | None => ret VNull
  end.

Definition reupSession (expiration : option Z) (s : Session) : M Session :=
  e <- expiry expiration ;;
  ret (mkSession (sid s) (js_set (data s) "_expire" e)).

(** The static [createSession(store, expiration, defaultData?)]; a
    [defaultData] that is given is an object, hence truthy. *)
Definition Session_createSession (expiration : option Z)
    (defaultData : option obj) : M Session :=
  sessionData <-
    match defaultData with
    | Some d => ret d
    | None =>
        accessed <- now ;;
        e <- expiry expiration ;;
        ret [ ("_flash", VObj []);
              ("_accessed", VStr (toISOString accessed));
              ("_expire", e);
              ("_delete", VBool false) ]
    end ;;
  match store cfg with
  | CookieEmbedded _ => ret (mkSession "" sessionData)
  | Keyed =>
      newID <- mint ;;
      Store.createSession newID sessionData ;;;
      ret (mkSession newID sessionData)
  end.

Definition persistSessionData (s : Session) : M unit :=
  match store cfg with
  | CookieEmbedded cs => CookieStore_persistSessionData cs (data s)
  | Keyed => Store.persistSessionData (sid s) (data s)
  end.

(** [session.set('_accessed', new Date().toISOString())]; [new Date()]
    holds the time of the call, which is a time value. *)
Definition stamp (s : Session) : M Session :=
  t <- now ;;
  ret (set "_accessed" (VStr (toISOString t)) s).

(** *** [Session.ts]: the three handlers *)

(** [null] is [None].  A payload that parses to a truthy value which is
    not an object (a number, a string, [true]) passes [sessionValid], its
    [_expire] reading as undefined, and then makes [reupSession] assign a
    property on a primitive: a TypeError in module code, raised once the
    right-hand side has been evaluated. *)
Definition fetchSession : M (option Session) :=
  match store cfg with
  | CookieEmbedded cs =>
      sessionData <- CookieStore_getSessionFromCookie cs ;;
      if negb (truthy sessionData) then ret None
      else
        match sessionData with
        | VObj d =>
            valid <- sessionValid d ;;
            session <-
              (if valid : bool then reupSession (expireAfterSeconds cfg) (mkSession "" d)
               else
                 CookieStore_deleteSession cs ;;;
                 Session_createSession (expireAfterSeconds cfg) None) ;;
            session <- stamp session ;;
            Cookies.set (sessionCookieName cfg) (sid session) ;;;
            ret (Some session)
        | _ => _ <- expiry (expireAfterSeconds cfg) ;; throw
        end
  | Keyed =>
      c <- Cookies.get (sessionCookieName cfg) ;;
      match present c with
      | None => ret None
      | Some sid0 =>
          found <- Store.getSessionById sid0 ;;
          match found with
          | None => ret None
          | Some d =>
              valid <- sessionValid d ;;
              session <-
                (if valid : bool then reupSession (expireAfterSeconds cfg) (mkSession sid0 d)
                 else
                   Store.deleteSession sid0 ;;;
                   Session_createSession (expireAfterSeconds cfg) None) ;;
              session <- stamp session ;;
              Cookies.set (sessionCookieName cfg) (sid session) ;;;
              ret (Some session)
          end
      end
  end.

Definition storeState (session : option Session) (rotate_session_key : bool)
    : M unit :=
  match session with
  | None => ret tt
  | Some s =>
      session <-
        match rotate_session_key, store cfg with
        | true, Keyed =>
            Store.deleteSession (sid s) ;;;
            s' <- Session_createSession (expireAfterSeconds cfg) (Some (data s)) ;;
            Cookies.set (sessionCookieName cfg) (sid s') ;;;
            ret s'
        | _, _ => ret s
        end ;;
      persistSessionData session ;;;
      if truthy (js_get (data session) "_delete") then
        match store cfg with
        | CookieEmbedded cs => CookieStore_deleteSession cs
        | Keyed =>
            Store.deleteSession (sid session) ;;;
            Cookies.delete (sessionCookieName cfg)
        end
      else ret tt
  end.

Definition createSession : M Session :=
  session <- Session_createSession (expireAfterSeconds cfg) None ;;
  session <- stamp session ;;
  match store cfg with
  | CookieEmbedded _ => ret session
  | Keyed => Cookies.set (sessionCookieName cfg) (sid session) ;;; ret session
  end.

End Handlers.

(** ** A concrete runtime

    The handlers are stated over any [Runtime]; the one below makes them
    run.  Its [Date] conversions and its JSON codec follow the language
    on the values of this model; the cipher and the identifier generator
    are stand-ins. *)

(** *** ISO-8601 instants, as [Date.prototype.toISOString] prints them *)
Module IsoDate.

Definition ms_per_day : Z := 86400000.

(** The civil date of a day number counted from 1970-01-01. *)
Definition civil_from_days (days : Z) : Z * Z * Z :=
  let z := days + 719468 in
  let era := z / 146097 in
  let doe := z - era * 146097 in
  let yoe := (doe - doe / 1460 + doe / 36524 - doe / 146096) / 365 in
  let doy := doe - (365 * yoe + yoe / 4 - yoe / 100) in
  let mp := (5 * doy + 2) / 153 in
  let d := doy - (153 * mp + 2) / 5 + 1 in
  let m := if mp <? 10 then mp + 3 else mp - 9 in
  let y := yoe + era * 400 + (if m <=? 2 then 1 else 0) in
  (y, m, d).

Definition days_from_civil (y m d : Z) : Z :=
  let y' := if m <=? 2 then y - 1 else y in
  let era := y' / 400 in
  let yoe := y' - era * 400 in
  let doy := (153 * (if m >? 2 then m - 3 else m + 9) + 2) / 5 + d - 1 in
  let doe := yoe * 365 + yoe / 4 - yoe / 100 + doy in
  era * 146097 + doe - 719468.

Definition digit (n : Z) : ascii := ascii_of_N (48 + Z.to_N (n mod 10)).

(** [n] in decimal on exactly [width] digits. *)
Fixpoint pad (width : nat) (n : Z) : string :=
  match width with
  | O => ""
  | S w => pad w (n / 10) ++ String (digit n) ""
  end.

Definition year (y : Z) : string :=
  if (0 <=? y) && (y <=? 9999) then pad 4 y
  else if y <? 0 then "-" ++ pad 6 (- y)
  else "+" ++ pad 6 y.

Definition toISOString (ms : Z) : string :=
  let '(y, m, d) := civil_from_days (ms / ms_per_day) in
  let t := ms mod ms_per_day in
  year y ++ "-" ++ pad 2 m ++ "-" ++ pad 2 d ++ "T"
    ++ pad 2 (t / 3600000) ++ ":" ++ pad 2 (t / 60000 mod 60) ++ ":"
    ++ pad 2 (t / 1000 mod 60) ++ "." ++ pad 3 (t mod 1000) ++ "Z".

Definition digit_value (c : ascii) : option Z :=
  let n := Z.of_N (N_of_ascii c) in
  if (48 <=? n) && (n <=? 57) then Some (n - 48) else None.

(** Reads exactly [width] digits. *)
Fixpoint digits (width : nat) (acc : Z) (s : string) : option (Z * string) :=
  match width with
  | O => Some (acc, s)
  | S w =>
      match s with
      | String c rest =>
          match digit_value c with
          | Some n => digits w (acc * 10 + n) rest
          | None => None
          end
      | EmptyString => None
      end
  end.

Definition expect (c : ascii) (s : string) : option string :=
  match s with
  | String c' rest => if Ascii.eqb c c' then Some rest else None
  | EmptyString => None
  end.

(** Reads the format [toISOString] writes, with a four-digit year; any
    other text is not a date (NaN). *)
Definition parse (s : string) : option Z :=
  '(y, s) ← digits 4 0 s;
  s ← expect "-"%char s;
  '(m, s) ← digits 2 0 s;
  s ← expect "-"%char s;
  '(d, s) ← digits 2 0 s;
  s ← expect "T"%char s;
  '(hh, s) ← digits 2 0 s;
  s ← expect ":"%char s;
  '(mm, s) ← digits 2 0 s;
  s ← expect ":"%char s;
  '(ss, s) ← digits 2 0 s;
  s ← expect "."%char s;
  '(mss, s) ← digits 3 0 s;
  s ← expect "Z"%char s;
  if negb (String.eqb s "") then None
  else if negb ((1 <=? m) && (m <=? 12) && (1 <=? d) && (d <=? 31)
                && (hh <=? 23) && (mm <=? 59) && (ss <=? 59)) then None
  else Some (days_from_civil y m d * ms_per_day
             + hh * 3600000 + mm * 60000 + ss * 1000 + mss).

End IsoDate.

(** *** JSON text of the values of this model

    [JSON.stringify] and [JSON.parse] belong to the language, not to the
    module; the handlers are stated over any codec (the fields of
    [Runtime]).  The one below is the JSON grammar on the fragment the
    values of this model have a text in: objects, strings of eight-bit
    characters, booleans, null and integers.  [stringify] follows
    [JSON.stringify] there: a property whose value is undefined or a
    function is left out, a number that is not finite is written [null],
    strings are quoted with the short escapes and [\u00XX] for the other
    control characters, an integer of magnitude below 2^53 is written
    with all its digits.  [parse] reads the texts of the fragment as
    [JSON.parse] does; a text outside the fragment (an array, a fraction
    or an exponent, a character above eight bits) is not read, and an
    integer beyond 2^53 is read with all its digits where the language
    rounds it. *)
Module Json.

Definition dquote : ascii := "034"%char.
Definition backslash : ascii := "092"%char.

Definition hex (n : N) : ascii :=
  if (n <? 10)%N then ascii_of_N (48 + n) else ascii_of_N (87 + n).

Definition escape (c : ascii) : string :=
  let n := N_of_ascii c in
  if (n =? 34)%N then String backslash (String dquote "")
  else if (n =? 92)%N then String backslash (String backslash "")
  else if (n =? 8)%N then "\b"
  else if (n =? 9)%N then "\t"
  else if (n =? 10)%N then "\n"
  else if (n =? 12)%N then "\f"
  else if (n =? 13)%N then "\r"
  else if (n <? 32)%N then "\u00" ++ String (hex (n / 16)) (String (hex (n mod 16)) "")
  else String c "".

Fixpoint escape_all (s : string) : string :=
  match s with
  | EmptyString => ""
  | String c rest => escape c ++ escape_all rest
  end.

Definition quote (s : string) : string :=
  String dquote (escape_all s ++ String dquote "").

Fixpoint print_uint (u : Decimal.uint) : string :=
  match u with
  | Decimal.Nil => ""
  | Decimal.D0 u => String "0" (print_uint u)
  | Decimal.D1 u => String "1" (print_uint u)
  | Decimal.D2 u => String "2" (print_uint u)
  | Decimal.D3 u => String "3" (print_uint u)
  | Decimal.D4 u => String "4" (print_uint u)
  | Decimal.D5 u => String "5" (print_uint u)
  | Decimal.D6 u => String "6" (print_uint u)
  | Decimal.D7 u => String "7" (print_uint u)
  | Decimal.D8 u => String "8" (print_uint u)
  | Decimal.D9 u => String "9" (print_uint u)
  end.

Definition print_int (z : Z) : string :=
  match Z.to_int z with
  | Decimal.Pos u => print_uint u
  | Decimal.Neg u => "-" ++ print_uint u
  end.

(** The members of an object from the first one on, closing brace
    included; [write] gives the text of a value, or [None] for a value
    that is left out. *)
Definition write_members (write : value -> option string)
    : bool -> list (string * value) -> string :=
  fix members (first : bool) (o : list (string * value)) : string :=
    match o with
    | [] => "}"
    | (k, x) :: rest =>
        match write x with
        | Some t =>
            (if first then "" else ",") ++ quote k ++ ":" ++ t
              ++ members false rest
        | None => members first rest
        end
    end.

(** [None] is undefined: nothing is written.  An inherited member is a
    function, left out, except the prototype itself, an object without
    enumerable properties. *)
Fixpoint serialize (v : value) : option string :=
  match v with
  | VUndef => None
  | VNative name => if String.eqb name "__proto__" then Some "{}" else None
  | VNull => Some "null"
  | VBool b => Some (if b then "true" else "false")
  | VNum (NInt z) => Some (print_int z)
  | VNum _ => Some "null"
  | VStr s => Some (quote s)
  | VObj o => Some ("{" ++ write_members serialize true o)
  end.

(** [JSON.stringify(v)] where a string is expected; the handlers only
    pass objects. *)
Definition stringify (v : value) : string :=
  match serialize v with
  | Some t => t
  | None => "undefined"
  end.

Definition is_ws (c : ascii) : bool :=
  let n := N_of_ascii c in
  ((n =? 32) || (n =? 9) || (n =? 10) || (n =? 13))%N.

Fixpoint skip_ws (s : string) : string :=
  match s with
  | String c rest => if is_ws c then skip_ws rest else s
  | EmptyString => s
  end.

Definition hex_value (c : ascii) : option N :=
  let n := N_of_ascii c in
  if ((48 <=? n) && (n <=? 57))%N then Some (n - 48)%N
  else if ((97 <=? n) && (n <=? 102))%N then Some (n - 87)%N
  else if ((65 <=? n) && (n <=? 70))%N then Some (n - 55)%N
  else None.

(** The characters of a string literal after its opening quote, up to
    the closing one. *)
Fixpoint parse_chars (s : string) : option (string * string) :=
  match s with
  | EmptyString => None
  | String c rest =>
      if Ascii.eqb c dquote then Some ("", rest)
      else if Ascii.eqb c backslash then
        match rest with
        | String e rest' =>
            let lit (x : ascii) :=
              '(t, r) ← parse_chars rest'; Some (String x t, r) in
            if Ascii.eqb e dquote then lit dquote
            else if Ascii.eqb e backslash then lit backslash
            else if Ascii.eqb e "/" then lit "/"%char
            else if Ascii.eqb e "b" then lit "008"%char
            else if Ascii.eqb e "f" then lit "012"%char
            else if Ascii.eqb e "n" then lit "010"%char
            else if Ascii.eqb e "r" then lit "013"%char
            else if Ascii.eqb e "t" then lit "009"%char
            else if Ascii.eqb e "u" then
              match rest' with
              | String h1 (String h2 (String h3 (String h4 rest''))) =>
                  match hex_value h1, hex_value h2, hex_value h3, hex_value h4 with
                  | Some 0%N, Some 0%N, Some a, Some b =>
                      '(t, r) ← parse_chars rest'';
                      Some (String (ascii_of_N (a * 16 + b)) t, r)
                  | _, _, _, _ => None
                  end
              | _ => None
              end
            else None
        | EmptyString => None
        end
      else if (N_of_ascii c <? 32)%N then None
      else '(t, r) ← parse_chars rest; Some (String c t, r)
  end.

Definition digit_of (c : ascii) : option (Decimal.uint -> Decimal.uint) :=
  if Ascii.eqb c "0" then Some Decimal.D0
  else if Ascii.eqb c "1" then Some Decimal.D1
  else if Ascii.eqb c "2" then Some Decimal.D2
  else if Ascii.eqb c "3" then Some Decimal.D3
  else if Ascii.eqb c "4" then Some Decimal.D4
  else if Ascii.eqb c "5" then Some Decimal.D5
  else if Ascii.eqb c "6" then Some Decimal.D6
  else if Ascii.eqb c "7" then Some Decimal.D7
  else if Ascii.eqb c "8" then Some Decimal.D8
  else if Ascii.eqb c "9" then Some Decimal.D9
  else None.

(** The longest run of digits at the head of [s]. *)
Fixpoint read_uint (s : string) : Decimal.uint * string :=
  match s with
  | String c rest =>
      match digit_of c with
      | Some d => let '(u, r) := read_uint rest in (d u, r)
      | None => (Decimal.Nil, s)
      end
  | EmptyString => (Decimal.Nil, s)
  end.

(** What may not follow the integer part here: a fraction or an
    exponent. *)
Definition continues_number (s : string) : bool :=
  match s with
  | String c _ => Ascii.eqb c "." || Ascii.eqb c "e" || Ascii.eqb c "E"
  | EmptyString => false
  end.

Definition parse_number (negative : bool) (s : string) : option (value * string) :=
  let '(u, rest) := read_uint s in
  match u with
  | Decimal.Nil => None
  | Decimal.D0 (Decimal.D0 _ | Decimal.D1 _ | Decimal.D2 _ | Decimal.D3 _
                | Decimal.D4 _ | Decimal.D5 _ | Decimal.D6 _ | Decimal.D7 _
                | Decimal.D8 _ | Decimal.D9 _) => None
  | _ =>
      if continues_number rest then None
      else Some (VNum (NInt (Z.of_int (if negative then Decimal.Neg u
                                       else Decimal.Pos u))), rest)
  end.

Fixpoint expect (word s : string) : option string :=
  match word with
  | EmptyString => Some s
  | String c word' =>
      match s with
      | String c' s' => if Ascii.eqb c c' then expect word' s' else None
      | EmptyString => None
      end
  end.

(** [parse_value] reads one value and returns what follows it;
    [parse_members] reads the members of an object from the first
    character of a member on, adding each to [acc] the way
    [JSON.parse] defines properties: a repeated key overwrites.  Each
    call uses one unit of [fuel]. *)
Fixpoint parse_value (fuel : nat) (s : string) : option (value * string) :=
  match fuel with
  | O => None
  | S fuel =>
      match skip_ws s with
      | EmptyString => None
      | String c rest =>
          if Ascii.eqb c "{" then
            match skip_ws rest with
            | String c' rest' =>
                if Ascii.eqb c' "}" then Some (VObj [], rest')
                else parse_members fuel [] (String c' rest')
            | EmptyString => None
            end
          else if Ascii.eqb c dquote then
            '(t, r) ← parse_chars rest; Some (VStr t, r)
          else if Ascii.eqb c "n" then
            r ← expect "ull" rest; Some (VNull, r)
          else if Ascii.eqb c "t" then
            r ← expect "rue" rest; Some (VBool true, r)
          else if Ascii.eqb c "f" then
            r ← expect "alse" rest; Some (VBool false, r)
          else if Ascii.eqb c "-" then parse_number true rest
          else parse_number false (String c rest)
      end
  end
with parse_members (fuel : nat) (acc : obj) (s : string) : option (value * string) :=
  match fuel with
  | O => None
  | S fuel =>
      match s with
      | String c rest =>
          if Ascii.eqb c dquote then
            '(k, r) ← parse_chars rest;
            r ← expect ":" (skip_ws r);
            '(v, r) ← parse_value fuel r;
            let acc := put acc k v in
            match skip_ws r with
            | String c' r' =>
                if Ascii.eqb c' "," then parse_members fuel acc (skip_ws r')
                else if Ascii.eqb c' "}" then Some (VObj acc, r')
                else None
            | EmptyString => None
            end
          else None
      | EmptyString => None
      end
  end.

Definition parse (s : string) : option value :=
  '(v, rest) ← parse_value (S (String.length s)) s;
  match skip_ws rest with
  | EmptyString => Some v
  | String _ _ => None
  end.

End Json.

(** The data C6 speaks of: nested string-keyed mappings whose leaves are
    strings, booleans, null and integers a number holds exactly (of
    magnitude at most 2^53 - 1); as objects have them, the keys of a
    mapping are pairwise different. *)
Fixpoint distinct (keys : list string) : bool :=
  match keys with
  | [] => true
  | k :: rest => negb (existsb (String.eqb k) rest) && distinct rest
  end.

Definition safe_integer (z : Z) : bool := Z.abs z <=? 9007199254740991.

Fixpoint json_safe (v : value) : bool :=
  match v with
  | VNull | VBool _ | VStr _ => true
  | VNum (NInt z) => safe_integer z
  | VObj o => distinct (map fst o) && forallb (fun kv => json_safe (snd kv)) o
  | _ => false
  end.

(** The values a JSON text of the fragment denotes: no undefined, no
    function and no number that is not finite anywhere in them. *)
Fixpoint json_shape (v : value) : bool :=
  match v with
  | VNull | VBool _ | VStr _ | VNum (NInt _) => true
  | VObj o => forallb (fun kv => json_shape (snd kv)) o
  | _ => false
  end.

(** *** The sample runtime *)
Module Sample.

(** Stand-in for [nanoid(21)]: the [n]-th identifier, 21 characters. *)
Definition identifier (n : nat) : string := "sid-" ++ IsoDate.pad 17 (Z.of_nat n).

(** Stand-in for the AES cipher of [crypto.ts]: the text is sealed
    under the key, and opening it with another key, or opening a text
    that was not sealed, fails. *)
Definition encrypt (plaintext key : string) : string :=
  "sealed:" ++ key ++ ":" ++ plaintext.

Definition decrypt (ciphertext key : string) : option string :=
  Json.expect ("sealed:" ++ key ++ ":") ciphertext.

Definition runtime (clock : nat -> Z) : Runtime := {|
  Date_now := clock;
  nanoid := identifier;
  toISOString := IsoDate.toISOString;
  Date_parse := IsoDate.parse;
  JSON_stringify := Json.stringify;
  JSON_parse := Json.parse;
  encryptCryptoJSAES := encrypt;
  decryptCryptoJSAES := decrypt
|}.

(** One reading per second from 2023-11-14T22:13:20Z on. *)
Definition clock (n : nat) : Z := 1700000000000 + 1000 * Z.of_nat n.

(** One reading per year. *)
Definition yearly (n : nat) : Z := 1700000000000 + 31536000000 * Z.of_nat n.

Definition world0 : World := mkWorld ∅ ∅ 0 0 [].

Definition keyed (expiration : option Z) : Config :=
  mkConfig Keyed expiration "session".

Definition embedded (expiration : option Z) : Config :=
  mkConfig (CookieEmbedded (mkCookieStore "secret" "session_data"))
    expiration "session".

(** The payload [createSession] builds at [2023-11-14T22:13:20Z] with
    no expiry configured. *)
Definition fresh : obj :=
  [ ("_flash", VObj []);
    ("_accessed", VStr "2023-11-14T22:13:20.000Z");
    ("_expire", VNull);
    ("_delete", VBool false) ].

(** A session of an earlier request: its identifier, and worlds that
    hold data for it, in a keyed store or sealed in the payload
    cookie. *)
Definition old : string := "V1StGXR8_Z5jdHi6B-myT".

Definition stored (d : obj) : World :=
  mkWorld {[ old := d ]} {[ "session" := old ]} 0 0 [].

Definition sealed (d : obj) : World :=
  mkWorld ∅ {[ "session_data" := encrypt (Json.stringify (VObj d)) "secret" ]}
    0 0 [].

(** Data that ran out one second before the first clock reading. *)
Definition expired : obj :=
  [ ("_flash", VObj [("message", VStr "Login successful")]);
    ("_accessed", VStr "2023-11-14T21:13:19.000Z");
    ("_expire", VStr "2023-11-14T22:13:19.000Z");
    ("_delete", VBool false);
    ("email", VStr "a@b.com") ].

(** Data still good for an hour at the first clock reading. *)
Definition live : obj :=
  [ ("_flash", VObj []);
    ("_accessed", VStr "2023-11-14T22:13:20.000Z");
    ("_expire", VStr "2023-11-14T23:13:20.000Z");
    ("_delete", VBool false);
    ("email", VStr "a@b.com") ].

(** Data after [deleteSession()]. *)
Definition doomed : obj :=
  [ ("_flash", VObj []);
    ("_accessed", VStr "2023-11-14T22:13:20.000Z");
    ("_expire", VNull);
    ("_delete", VBool true);
    ("email", VStr "a@b.com") ].

End Sample.

(** * What the claims speak of *)

(** What C5 asks of a session [s], a key [k] and a value [v]:
    [flash(k, v)], then [get(k)] returns [v], then [get(k)] on the same
    instance returns undefined. *)
Definition flash_read_once (s : Session) (k : string) (v : value) : Prop :=
  exists s1 s2 s3,
    flash k v s = Some s1 /\ get k s1 = Some (v, s2) /\ get k s2 = Some (VUndef, s3).

(** What [fetchSession] finds in world [w]: the identifier it reads (the
    empty string for a cookie-embedded store) and the data it loads. *)
Definition loaded {rt : Runtime} (cfg : Config) (w : World)
    (id : string) (d : obj) : Prop :=
  match store cfg with
  | Keyed =>
      present (jar w !! sessionCookieName cfg) = Some id /\
      entries w !! id = Some d
  | CookieEmbedded cs =>
      id = "" /\
      exists c p,
        present (jar w !! sessionDataCookieName cs) = Some c /\
        decryptCryptoJSAES c (encryptionKey cs) = Some p /\
        JSON_parse p = Some (VObj d)
  end.

(** The test of [sessionValid] at clock reading [t] answers true. *)
Definition valid_at {rt : Runtime} (d : obj) (t : Z) : bool :=
  match js_get d "_expire" with
  | VUndef | VNull => true
  | e =>
      match Date_getTime e with
      | Return (Some limit) => t <? limit
      | Return None | Throw => false
      end
  end.

(** The test of [sessionValid] at clock reading [t] answers false (it
    does not throw). *)
Definition expired_at {rt : Runtime} (d : obj) (t : Z) : bool :=
  match js_get d "_expire" with
  | VUndef | VNull => false
  | e =>
      match Date_getTime e with
      | Return (Some limit) => negb (t <? limit)
      | Return None => true
      | Throw => false
      end
  end.

(** How many times [sessionValid] reads the clock on [d]: not at all when
    [_expire] is null or undefined. *)
Definition validity_readings (d : obj) : nat :=
  match js_get d "_expire" with
  | VUndef | VNull => 0
  | _ => 1
  end.

(** How many times [expiration ? ... : null] reads the clock. *)
Definition expiry_readings (cfg : Config) : nat :=
  match window (expireAfterSeconds cfg) with
  | Some _ => 1
  | None => 0
  end.

(** The expiry instant computed from the clock reading number [t] is a
    time value, so that [toISOString] prints it; without a window none
    is computed. *)
Definition expiry_fits {rt : Runtime} (cfg : Config) (t : nat) : bool :=
  match window (expireAfterSeconds cfg) with
  | Some n => time_value (Date_now t + n * 1000)
  | None => true
  end.

(** The [_expire] computed from the clock reading [t]. *)
Definition expire_from {rt : Runtime} (cfg : Config) (t : Z) : value :=
  match window (expireAfterSeconds cfg) with
  | Some n => VStr (toISOString (t + n * 1000))
  | None => VNull
  end.

(** [d'] is [d] renewed: its [_expire] is the one computed from the
    reading [t], its [_accessed] the instant [accessed], and every other
    property is that of [d]. *)
Definition renewal_of {rt : Runtime} (cfg : Config) (d d' : obj)
    (t accessed : Z) : Prop :=
  own d' "_expire" = Some (expire_from cfg t) /\
  own d' "_accessed" = Some (VStr (toISOString accessed)) /\
  forall k, k <> "_expire" -> k <> "_accessed" -> own d' k = own d k.

(** The call writes data under the identifier [id] in the keyed store. *)
Definition writes_under (id : string) (e : event) : bool :=
  match e with
  | StoreCreate i _ | StorePersist i _ => String.eqb i id
  | _ => false
  end.

(** [n] successive calls of [fetchSession] and what each returned. *)
Fixpoint fetch_repeatedly {rt : Runtime} (cfg : Config) (n : nat)
    : M (list (option Session)) :=
  match n with
  | O => ret []
  | S n =>
      r <- fetchSession cfg ;;
      rest <- fetch_repeatedly cfg n ;;
      ret (r :: rest)
  end.

(** The data of the session a valid fetch returns, as [reupSession] and
    [set] compute them: [_expire] assigned from the clock reading [t],
    then [_accessed] assigned. *)
Definition renewed {rt : Runtime} (cfg : Config) (d : obj) (t : Z)
    (accessed : Z) : obj :=
  js_set
    (js_set d "_expire"
       match window (expireAfterSeconds cfg) with
       | Some n => VStr (toISOString (t + n * 1000))
       | None => VNull
       end)
    "_accessed" (VStr (toISOString accessed)).

(** [persistSessionData(cookies, d)] followed by
    [getSessionFromCookie(cookies)] on the same cookie accessor. *)
Definition persist_then_get {rt : Runtime} (cs : CookieStoreConfig) (d : obj)
    : M value :=
  CookieStore_persistSessionData cs d ;;; CookieStore_getSessionFromCookie cs.

(** The assumption of C6 on the cipher: under [key], decrypting what was
    encrypted gives the text back; a ciphertext is never the empty
    string (it carries at least its salt header). *)
Definition cipher_sound {rt : Runtime} (key : string) : Prop :=
  forall p,
    decryptCryptoJSAES (encryptCryptoJSAES p key) key = Some p /\
    encryptCryptoJSAES p key <> "".

(** A runtime with the JSON codec of this development. *)
Definition with_json (rt : Runtime) : Runtime := {|
  Date_now := Date_now;
  nanoid := nanoid;
  toISOString := toISOString;
  Date_parse := Date_parse;
  JSON_stringify := Json.stringify;
  JSON_parse := Json.parse;
  encryptCryptoJSAES := encryptCryptoJSAES;
  decryptCryptoJSAES := decryptCryptoJSAES
|}.

(** What may follow a value inside a text: a comma, a closing brace or
    the end. *)
Definition stops (rest : string) : bool :=
  match rest with
  | String c _ => Ascii.eqb c "," || Ascii.eqb c "}"
  | EmptyString => true
  end.

(** [v] has a text, and [Json.parse_value] reads it back with enough
    fuel, whatever follows. *)
Definition reads_back (v : value) : Prop :=
  exists t, Json.serialize v = Some t /\
    forall fuel rest, (String.length t < fuel)%nat -> stops rest = true ->
      Json.parse_value fuel (t ++ rest) = Some (v, rest).

(** * What the further properties speak of *)

(** The data the static [createSession] builds when given none: the
    default fields, [_accessed] from the reading [accessed] and
    [_expire] from the reading [t]. *)
Definition defaults {rt : Runtime} (cfg : Config) (accessed t : Z) : obj :=
  [ ("_flash", VObj []);
    ("_accessed", VStr (toISOString accessed));
    ("_expire",
     match window (expireAfterSeconds cfg) with
     | Some n => VStr (toISOString (t + n * 1000))
     | None => VNull
     end);
    ("_delete", VBool false) ].

(** There is no session for [fetchSession] to load: a keyed store whose
    transport cookie is missing or empty, or names an identifier the
    store does not hold; a cookie-embedded store whose payload cookie is
    missing or empty, or holds the text of a falsy value. *)
Definition nothing_to_fetch {rt : Runtime} (cfg : Config) (w : World) : Prop :=
  match store cfg with
  | Keyed =>
      present (jar w !! sessionCookieName cfg) = None \/
      exists id, present (jar w !! sessionCookieName cfg) = Some id /\
                 entries w !! id = None
  | CookieEmbedded cs =>
      present (jar w !! sessionDataCookieName cs) = None \/
      exists c p v,
        present (jar w !! sessionDataCookieName cs) = Some c /\
        decryptCryptoJSAES c (encryptionKey cs) = Some p /\
        JSON_parse p = Some v /\ truthy v = false
  end.

(** * Properties *)

(** ** The concrete runtime at work *)

Example toISOString_epoch : IsoDate.toISOString 0 = "1970-01-01T00:00:00.000Z".
Proof. reflexivity. Qed.

Example toISOString_leap_day :
  IsoDate.toISOString 951782400000 = "2000-02-29T00:00:00.000Z".
Proof. reflexivity. Qed.

Example toISOString_before_epoch :
  IsoDate.toISOString (-1) = "1969-12-31T23:59:59.999Z".
Proof. reflexivity. Qed.

Example parse_toISOString :
  IsoDate.parse (IsoDate.toISOString 1700000000123) = Some 1700000000123.
Proof. vm_compute. reflexivity. Qed.

Example parse_not_a_date : IsoDate.parse "tomorrow" = None.
Proof. reflexivity. Qed.

Example stringify_fresh :
  Json.stringify (VObj [ ("_flash", VObj [("note", VUndef)]);
                         ("_expire", VNull); ("_delete", VBool false);
                         ("visits", VNum (NInt (-12))) ])
  = "{" ++ Json.quote "_flash" ++ ":{},"
        ++ Json.quote "_expire" ++ ":null,"
        ++ Json.quote "_delete" ++ ":false,"
        ++ Json.quote "visits" ++ ":-12}".
Proof. reflexivity. Qed.

Example parse_repeated_key :
  Json.parse (" { " ++ Json.quote "a" ++ " : 1 , " ++ Json.quote "b" ++ ":true, "
                ++ Json.quote "a" ++ ":{ } } ")
  = Some (VObj [("a", VObj []); ("b", VBool true)]).
Proof. vm_compute. reflexivity. Qed.

Example parse_rejects_leading_zero : Json.parse "01" = None.
Proof. reflexivity. Qed.

Example parse_rejects_trailing_text : Json.parse "{}x" = None.
Proof. reflexivity. Qed.

(** ** Dates made from the values of a session *)

Example getTime_of_timestamp :
  Date_getTime (rt := Sample.runtime Sample.clock) (VStr "2023-11-14T22:13:20.000Z")
  = Return (Some 1700000000000).
Proof. vm_compute. reflexivity. Qed.

Example getTime_of_plain_object :
  Date_getTime (rt := Sample.runtime Sample.clock) (VObj [("year", VNum (NInt 2023))])
  = Return None.
Proof. reflexivity. Qed.

Example getTime_without_toString :
  Date_getTime (rt := Sample.runtime Sample.clock) (VObj [("toString", VNum (NInt 1))])
  = Throw.
Proof. reflexivity. Qed.

Example getTime_beyond_range :
  Date_getTime (rt := Sample.runtime Sample.clock) (VNum (NInt 8640000000000001))
  = Return None.
Proof. reflexivity. Qed.

Example toISOString_beyond_range :
  (Date_toISOString (rt := Sample.runtime Sample.clock) 8640000000000001
     Sample.world0).1 = Throw /\
  (Date_toISOString (rt := Sample.runtime Sample.clock) 8640000000000000
     Sample.world0).1 = Return "+275760-09-13T00:00:00.000Z".
Proof. split; vm_compute; reflexivity. Qed.

(** ** Own properties *)

Lemma own_put_eq (o : obj) (k : string) (v : value) : own (put o k v) k = Some v.
Proof.
  induction o as [|[k' v'] o IH]; simpl.
  - by rewrite String.eqb_refl.
  - destruct (String.eqb k k') eqn:E; simpl; rewrite E; auto.
Qed.

Lemma own_put_ne (o : obj) (k k' : string) (v : value) :
  k <> k' -> own (put o k v) k' = own o k'.
Proof.
  intros Hne. induction o as [|[k0 v0] o IH]; simpl.
  - destruct (String.eqb k' k) eqn:E; [|done].
    apply String.eqb_eq in E. congruence.
  - destruct (String.eqb k k0) eqn:E; simpl.
    + apply String.eqb_eq in E. subst k0.
      destruct (String.eqb k' k) eqn:E'; [|done].
      apply String.eqb_eq in E'. congruence.
    + by rewrite IH.
Qed.

Lemma own_js_delete_eq (o : obj) (k : string) : own (js_delete o k) k = None.
Proof.
  induction o as [|[k' v'] o IH]; simpl; [done|].
  destruct (String.eqb k k') eqn:E; simpl; [done|]. by rewrite E.
Qed.

Lemma own_js_delete_ne (o : obj) (k k' : string) :
  k <> k' -> own (js_delete o k) k' = own o k'.
Proof.
  intros Hne. induction o as [|[k0 v0] o IH]; simpl; [done|].
  destruct (String.eqb k k0) eqn:E; simpl.
  - apply String.eqb_eq in E. subst k0.
    destruct (String.eqb k' k) eqn:E'; [|done].
    apply String.eqb_eq in E'. congruence.
  - by rewrite IH.
Qed.

Lemma js_in_false (k : string) (o : obj) :
  js_in k o = false <-> own o k = None /\ inherited k = false.
Proof.
  unfold js_in. destruct (own o k); split; intros H; try done; by destruct H.
Qed.

Lemma inherited_proto (k : string) : inherited k = false -> k <> "__proto__".
Proof. intros H ->. discriminate H. Qed.

Lemma js_set_fresh (o : obj) (k : string) (v : value) :
  inherited k = false -> js_set o k v = put o k v.
Proof.
  intros H. unfold js_set. destruct (own o k); [done|].
  destruct (String.eqb k "__proto__") eqn:E; [|done].
  apply String.eqb_eq in E. by apply inherited_proto in H.
Qed.

Lemma flash_of_own (d fl : obj) :
  flash_of d = Some fl <-> own d "_flash" = Some (VObj fl).
Proof.
  unfold flash_of, js_get.
  replace (inherited "_flash") with false by reflexivity.
  destruct (own d "_flash") as [[]|]; split; intros H;
    first [discriminate H | by injection H as ->].
Qed.

Lemma flash_of_put (d fl : obj) : flash_of (put d "_flash" (VObj fl)) = Some fl.
Proof. apply flash_of_own, own_put_eq. Qed.

(** A key that is not [in] the data is not the reserved [_flash] field
    once that field is there. *)
Lemma absent_not_flash (d fl : obj) (k : string) :
  flash_of d = Some fl -> js_in k d = false -> k <> "_flash".
Proof.
  intros Hfl Hk ->. apply flash_of_own in Hfl. apply js_in_false in Hk.
  destruct Hk as [Hk _]. congruence.
Qed.

Lemma js_in_put_flash (d fl : obj) (k : string) :
  k <> "_flash" -> js_in k (put d "_flash" (VObj fl)) = js_in k d.
Proof. intros Hne. unfold js_in. rewrite own_put_ne; [done|congruence]. Qed.

(** ** The session entity: flash values *)

Lemma get_flashed (s : Session) (k : string) (v : value) (fl : obj) :
  flash_of (data s) = Some fl -> js_in k (data s) = false ->
  flash k v s = Some (mkSession (sid s) (put (data s) "_flash" (VObj (put fl k v)))) /\
  get k (mkSession (sid s) (put (data s) "_flash" (VObj (put fl k v))))
  = Some (v, mkSession (sid s)
               (put (put (data s) "_flash" (VObj (put fl k v))) "_flash"
                    (VObj (js_delete (put fl k v) k)))).
Proof.
  intros Hfl Hk.
  pose proof (absent_not_flash _ _ _ Hfl Hk) as Hne.
  pose proof (proj1 (js_in_false _ _) Hk) as [_ Hinh].
  split.
  - unfold flash. rewrite Hfl. by rewrite js_set_fresh.
  - unfold get; simpl. rewrite js_in_put_flash, Hk, flash_of_put by done.
    unfold js_get. by rewrite own_put_eq.
Qed.

Lemma get_consumed (i : string) (d fl : obj) (k : string) :
  js_in k d = false -> k <> "_flash" ->
  exists s', get k (mkSession i (put d "_flash" (VObj (js_delete fl k))))
             = Some (VUndef, s').
Proof.
  intros Hk Hne.
  pose proof (proj1 (js_in_false _ _) Hk) as [_ Hinh].
  eexists. unfold get; simpl. rewrite js_in_put_flash, Hk, flash_of_put by done.
  unfold js_get. rewrite own_js_delete_eq, Hinh. reflexivity.
Qed.

(** C5, as it holds: for a session whose [_flash] field holds a mapping
    and a key [k] that is not [in] the main mapping, [flash(k, v)]
    followed by [get(k)] returns [v], and a second [get(k)] on the same
    instance returns undefined. *)
Theorem flash_get_once (s : Session) (k : string) (v : value) (fl : obj) :
  flash_of (data s) = Some fl ->
  js_in k (data s) = false ->
  flash_read_once s k v.
Proof.
  intros Hfl Hk.
  pose proof (absent_not_flash _ _ _ Hfl Hk) as Hne.
  destruct (get_flashed s k v fl Hfl Hk) as [H1 H2].
  destruct (get_consumed (sid s) (put (data s) "_flash" (VObj (put fl k v)))
              (put fl k v) k) as [s3 H3]; [by rewrite js_in_put_flash|done|].
  unfold flash_read_once. do 3 eexists.
  split; [exact H1|]. split; [exact H2|exact H3].
Qed.

Lemma flash_get_once_witness :
  let s := mkSession "sid-00000000000000000" Sample.fresh in
  flash_of (data s) = Some [] /\
  js_in "message" (data s) = false /\
  flash_read_once s "message" (VStr "Login successful").
Proof.
  split; [reflexivity|]. split; [reflexivity|].
  apply (flash_get_once _ "message" (VStr "Login successful") []); reflexivity.
Defined.

(** C5 as worded fails for a key of the main mapping: after
    [set('email', 'a@b.com')], [flash('email', 'x')] and then
    [get('email')] returns ['a@b.com'], and the flash entry stays. *)
Lemma flash_get_shadowed :
  let s := set "email" (VStr "a@b.com") (mkSession "sid-00000000000000000" Sample.fresh) in
  (exists s1, flash "email" (VStr "x") s = Some s1 /\
              get "email" s1 = Some (VStr "a@b.com", s1)) /\
  ~ flash_read_once s "email" (VStr "x").
Proof.
  split.
  - eexists. split; reflexivity.
  - intros (s1 & s2 & s3 & H1 & H2 & _).
    vm_compute in H1. injection H1 as <-.
    vm_compute in H2. discriminate H2.
Qed.

(** C10: for a session whose [_flash] field holds a mapping and a key [k]
    that is not [in] the main mapping: after [flash(k, undefined)],
    [has(k)] is true although [get(k)] returns undefined; that [get(k)]
    consumes the entry, so [has(k)] is false afterwards; and
    [set(k, undefined)] leaves no own property [k] behind. *)
Theorem has_sees_undefined_flash (s : Session) (k : string) (fl : obj) :
  flash_of (data s) = Some fl ->
  js_in k (data s) = false ->
  exists s1 s2,
    flash k VUndef s = Some s1 /\
    has k s1 = Some true /\
    get k s1 = Some (VUndef, s2) /\
    has k s2 = Some false /\
    (forall s', own (data (set k VUndef s')) k = None).
Proof.
  intros Hfl Hk.
  pose proof (absent_not_flash _ _ _ Hfl Hk) as Hne.
  pose proof (proj1 (js_in_false _ _) Hk) as [_ Hinh].
  destruct (get_flashed s k VUndef fl Hfl Hk) as [H1 H2].
  do 2 eexists. split; [exact H1|]. split; [|split; [exact H2|split]].
  - unfold has; simpl. rewrite js_in_put_flash, Hk, flash_of_put by done.
    unfold js_in. by rewrite own_put_eq.
  - unfold has; simpl. rewrite !js_in_put_flash, Hk, flash_of_put by done.
    unfold js_in. by rewrite own_js_delete_eq, Hinh.
  - intros s'. simpl. apply own_js_delete_eq.
Qed.

Lemma has_sees_undefined_flash_witness :
  let s := mkSession "sid-00000000000000000" Sample.fresh in
  flash_of (data s) = Some [] /\
  js_in "notice" (data s) = false /\
  exists s1 s2,
    flash "notice" VUndef s = Some s1 /\
    has "notice" s1 = Some true /\
    get "notice" s1 = Some (VUndef, s2) /\
    has "notice" s2 = Some false /\
    (forall s', own (data (set "notice" VUndef s')) "notice" = None).
Proof.
  split; [reflexivity|]. split; [reflexivity|].
  apply (has_sees_undefined_flash _ "notice" []); reflexivity.
Defined.

(** ** The handlers *)

(** Runs a handler on a world given by its fields. *)
Ltac run :=
  cbv [fetchSession storeState createSession Session_createSession
       persistSessionData CookieStore_getSessionFromCookie
       CookieStore_createSession CookieStore_deleteSession
       CookieStore_persistSessionData sessionValid expiry reupSession stamp
       now mint Cookies.get Cookies.set Cookies.delete Store.createSession
       Store.getSessionById Store.persistSessionData Store.deleteSession
       Date_toISOString bind ret throw lift emit with_entries with_jar
       store expireAfterSeconds sessionCookieName
       encryptionKey sessionDataCookieName
       entries jar ticks minted trace sid data fst snd].

Section HandlerProperties.

Context {rt : Runtime}.

(** *** [storeState] on a session marked for deletion *)

(** C1, as it holds: [storeState] on a session whose [_delete] is true
    writes the data and removes them again before it returns; [calls]
    are the calls it makes on the store and the cookies, in order.
    With rotation on a keyed store nothing is written under the old
    identifier (the generated one being different): the old entry is
    deleted, the data are created and persisted under the generated
    identifier, and that entry is deleted in turn.  Without rotation the
    data are persisted under the session's own identifier and the entry
    is then deleted (keyed store), or the payload cookie is set with the
    data and then deleted (cookie-embedded store, with or without
    rotation).  Afterwards the keyed store holds no entry under the old
    or the generated identifier and is otherwise as before, and the
    transport cookie, or the payload cookie, is deleted. *)
Theorem storeState_delete_ends_removed (cfg : Config) (s : Session)
    (rotate : bool) (w : World) :
  js_get (data s) "_delete" = VBool true ->
  exists w' calls,
    storeState cfg (Some s) rotate w = (Return tt, w') /\
    trace w' = (trace w ++ calls)%list /\
    match store cfg, rotate with
    | Keyed, false =>
        calls = [ StorePersist (sid s) (data s);
                  StoreDelete (sid s);
                  CookieDelete (sessionCookieName cfg) ] /\
        entries w' = delete (sid s) (entries w) /\
        jar w' = delete (sessionCookieName cfg) (jar w)
    | Keyed, true =>
        let new := nanoid (minted w) in
        calls = [ StoreDelete (sid s);
                  StoreCreate new (data s);
                  CookieSet (sessionCookieName cfg) new;
                  StorePersist new (data s);
                  StoreDelete new;
                  CookieDelete (sessionCookieName cfg) ] /\
        (new <> sid s ->
         forall e, In e calls -> writes_under (sid s) e = false) /\
        entries w' = delete new (delete (sid s) (entries w)) /\
        jar w' = delete (sessionCookieName cfg) (jar w)
    | CookieEmbedded cs, _ =>
        calls = [ CookieSet (sessionDataCookieName cs)
                    (encryptCryptoJSAES (JSON_stringify (VObj (data s)))
                       (encryptionKey cs));
                  CookieDelete (sessionDataCookieName cs) ] /\
        entries w' = entries w /\
        jar w' = delete (sessionDataCookieName cs) (jar w)
    end.
Proof.
  intros Hd. destruct cfg as [[|cs] exp name], s as [i d], w as [en jr tk mn tr].
  all: simpl in Hd.
  all: destruct rotate; run; rewrite Hd; run; eexists _, _.
  all: (split; [reflexivity|]); cbn [entries jar trace].
  all: rewrite <- ?app_assoc; (split; [reflexivity|]).
  all: (split; [reflexivity|]).
  all: rewrite ?delete_insert_eq; try done.
  split; [|done]. intros Hne e He. cbn in He.
  assert (String.eqb (nanoid mn) i = false) as E by (by apply String.eqb_neq).
  destruct He as [<-|[<-|[<-|[<-|[<-|[<-|[]]]]]]]; cbn; by rewrite ?E.
Qed.

(** *** [fetchSession] on an expired session *)

(** C2, as it holds: on a keyed store, when the loaded data's [_expire]
    is a timestamp that is not after the clock reading of the validity
    test, [fetchSession] deletes the entry of the old identifier.  When
    the new expiry instant, computed from the clock reading [te], is a
    time value (as it is when no window is configured), it returns a
    session under the newly generated identifier (different from the old
    one, the generator not repeating it) whose data are the default
    fields only: empty [_flash], [_delete] false, [_accessed] and
    [_expire] taken from the clock; the new identifier is in the store
    and in the transport cookie.  When that instant is beyond the range
    of [Date], it throws after deleting the old entry, with no cookie
    written and no identifier generated. *)
Theorem fetchSession_replaces_expired (cfg : Config) (w : World)
    (old e : string) (d : obj) (limit : Z) :
  store cfg = Keyed ->
  loaded cfg w old d ->
  js_get d "_expire" = VStr e ->
  Date_parse e = Some limit ->
  limit <= Date_now (ticks w) ->
  nanoid (minted w) <> old ->
  let te := (2 + ticks w)%nat in
  exists w',
    entries w' !! old = None /\
    if expiry_fits cfg te then
      exists s ta,
        fetchSession cfg w = (Return (Some s), w') /\
        sid s = nanoid (minted w) /\
        sid s <> old /\
        data s = [ ("_flash", VObj []);
                   ("_accessed", VStr (toISOString (Date_now ta)));
                   ("_expire",
                    match window (expireAfterSeconds cfg) with
                    | Some n => VStr (toISOString (Date_now te + n * 1000))
                    | None => VNull
                    end);
                   ("_delete", VBool false) ] /\
        (te <= ta < ticks w')%nat /\
        is_Some (entries w' !! sid s) /\
        jar w' !! sessionCookieName cfg = Some (sid s)
    else
      fetchSession cfg w = (Throw, w') /\
      jar w' = jar w /\ minted w' = minted w.
Proof.
  intros Hst Hload Hexp Hparse Hpast Hnew te. subst te.
  unfold loaded in Hload. rewrite Hst in Hload. destruct Hload as [Hc Hd].
  destruct cfg as [st exp name], w as [en jr tk mn tr].
  unfold expiry_fits.
  cbn [store sessionCookieName expireAfterSeconds entries jar ticks minted] in *.
  subst st. apply Z.ltb_ge in Hpast.
  run. rewrite Hc. run. rewrite Hd, Hexp. run.
  cbn [Date_getTime]. rewrite Hparse, Hpast.
  destruct (window exp) as [n|]; run; cbn [Nat.add].
  - destruct (time_value (Date_now (S (S tk)) + n * 1000)); run.
    + eexists. split; [|eexists _, (S (S (S tk))); split; [reflexivity|]].
      all: cbn [sid data entries jar ticks].
      * by rewrite lookup_insert_ne, lookup_delete_eq.
      * repeat split; try done; try lia.
        -- rewrite lookup_insert_eq. eauto.
        -- apply lookup_insert_eq.
    + eexists. split; [|split; [reflexivity|done]].
      cbn [entries]. apply lookup_delete_eq.
  - eexists. split; [|eexists _, (S (S tk)); split; [reflexivity|]].
    all: cbn [sid data entries jar ticks].
    + by rewrite lookup_insert_ne, lookup_delete_eq.
    + repeat split; try done; try lia.
      * rewrite lookup_insert_eq. eauto.
      * apply lookup_insert_eq.
Qed.

(** *** [fetchSession] on a payload that cannot be read *)

(** C3, as it holds: on a cookie-embedded store, when the payload
    cookie is present but its decryption or its parsing fails,
    [fetchSession] returns null: it does not throw, creates no session
    and writes nothing; reading the payload cookie is its only call. *)
Theorem fetchSession_unreadable_payload_is_null (cfg : Config)
    (cs : CookieStoreConfig) (w : World) (c : string) :
  store cfg = CookieEmbedded cs ->
  present (jar w !! sessionDataCookieName cs) = Some c ->
  (decryptCryptoJSAES c (encryptionKey cs) = None \/
   exists p, decryptCryptoJSAES c (encryptionKey cs) = Some p /\
             JSON_parse p = None) ->
  fetchSession cfg w
  = (Return None,
     mkWorld (entries w) (jar w) (ticks w) (minted w)
       (trace w ++ [CookieGet (sessionDataCookieName cs)])).
Proof.
  intros Hst Hc Hfail.
  destruct cfg as [st exp name], w as [en jr tk mn tr], cs as [key pname].
  cbn [store entries jar ticks minted trace encryptionKey
       sessionDataCookieName] in *. subst st.
  run. rewrite Hc. destruct Hfail as [Hdec|(p & Hdec & Hparse)].
  - by rewrite Hdec.
  - by rewrite Hdec, Hparse.
Qed.

(** *** [fetchSession] on a valid session *)

(** The step shared by C4, C8 and C9: what [fetchSession] returns and
    does when the loaded data pass the validity test.  The expiry is
    computed from the clock reading [t]; when it is a time value the
    session is returned renewed, when it is not the call throws before
    anything is written. *)
Lemma fetchSession_valid (cfg : Config) (w : World) (id : string) (d : obj) :
  loaded cfg w id d ->
  valid_at d (Date_now (ticks w)) = true ->
  let t := (ticks w + validity_readings d)%nat in
  let ta := (t + expiry_readings cfg)%nat in
  let gets :=
    match store cfg with
    | Keyed => [ CookieGet (sessionCookieName cfg); StoreGet id ]
    | CookieEmbedded cs => [ CookieGet (sessionDataCookieName cs) ]
    end in
  if expiry_fits cfg t then
    fetchSession cfg w
    = (Return (Some (mkSession id (renewed cfg d (Date_now t) (Date_now ta)))),
       mkWorld (entries w) (<[sessionCookieName cfg := id]> (jar w)) (S ta)
         (minted w)
         (trace w ++ gets ++ [ CookieSet (sessionCookieName cfg) id ]))
  else
    fetchSession cfg w
    = (Throw, mkWorld (entries w) (jar w) (S t) (minted w) (trace w ++ gets)).
Proof.
  intros Hload Hvalid. unfold loaded in Hload.
  unfold valid_at in Hvalid. unfold validity_readings, expiry_readings, expiry_fits.
  assert (forall k : nat, (k + 0 = k /\ k + 1 = S k)%nat) as Hadd by (intros; lia).
  destruct cfg as [[|[key pname]] exp name], w as [en jr tk mn tr].
  all: cbn [store sessionCookieName expireAfterSeconds entries jar ticks
            minted trace encryptionKey sessionDataCookieName] in *.
  - destruct Hload as [Hc Hd]. run. rewrite Hc. run. rewrite Hd.
    unfold renewed. cbn [expireAfterSeconds].
    destruct (js_get d "_expire") as [| |b|z|e|o|f] eqn:He.
    all: try (destruct (Date_getTime _) as [[limit|]|] eqn:Hg;
              try discriminate Hvalid; run; rewrite Hvalid).
    all: destruct (window exp) as [n|]; run.
    all: rewrite ?(proj1 (Hadd _)), ?(proj2 (Hadd _)).
    all: try (destruct (time_value _); run).
    all: cbv [set]; run; rewrite <- ?app_assoc; reflexivity.
  - destruct Hload as (-> & c & p & Hc & Hdec & Hparse).
    run. rewrite Hc, Hdec, Hparse. cbn [truthy negb]. run.
    unfold renewed. cbn [expireAfterSeconds].
    destruct (js_get d "_expire") as [| |b|z|e|o|f] eqn:He.
    all: try (destruct (Date_getTime _) as [[limit|]|] eqn:Hg;
              try discriminate Hvalid; run; rewrite Hvalid).
    all: destruct (window exp) as [n|]; run.
    all: rewrite ?(proj1 (Hadd _)), ?(proj2 (Hadd _)).
    all: try (destruct (time_value _); run).
    all: cbv [set]; run; rewrite <- ?app_assoc; reflexivity.
Qed.

Lemma fetchSession_valid_fits (cfg : Config) (w : World) (id : string) (d : obj) :
  loaded cfg w id d ->
  valid_at d (Date_now (ticks w)) = true ->
  expiry_fits cfg (ticks w + validity_readings d) = true ->
  fetchSession cfg w
  = (Return (Some (mkSession id
               (renewed cfg d (Date_now (ticks w + validity_readings d))
                  (Date_now (ticks w + validity_readings d + expiry_readings cfg))))),
     mkWorld (entries w) (<[sessionCookieName cfg := id]> (jar w))
       (S (ticks w + validity_readings d + expiry_readings cfg)) (minted w)
       (trace w ++
        match store cfg with
        | Keyed => [ CookieGet (sessionCookieName cfg); StoreGet id ]
        | CookieEmbedded cs => [ CookieGet (sessionDataCookieName cs) ]
        end ++ [ CookieSet (sessionCookieName cfg) id ])).
Proof.
  intros Hload Hvalid Hfit.
  pose proof (fetchSession_valid cfg w id d Hload Hvalid) as Hfetch.
  cbv zeta in Hfetch.
  destruct (expiry_fits cfg _); [exact Hfetch|discriminate Hfit].
Qed.

Lemma fetchSession_valid_throws (cfg : Config) (w : World) (id : string) (d : obj) :
  loaded cfg w id d ->
  valid_at d (Date_now (ticks w)) = true ->
  expiry_fits cfg (ticks w + validity_readings d) = false ->
  fetchSession cfg w
  = (Throw,
     mkWorld (entries w) (jar w) (S (ticks w + validity_readings d)) (minted w)
       (trace w ++
        match store cfg with
        | Keyed => [ CookieGet (sessionCookieName cfg); StoreGet id ]
        | CookieEmbedded cs => [ CookieGet (sessionDataCookieName cs) ]
        end)).
Proof.
  intros Hload Hvalid Hfit.
  pose proof (fetchSession_valid cfg w id d Hload Hvalid) as Hfetch.
  cbv zeta in Hfetch.
  destruct (expiry_fits cfg _); [discriminate Hfit|exact Hfetch].
Qed.

Lemma js_set_ordinary (o : obj) (k : string) (v : value) :
  k <> "__proto__" -> js_set o k v = put o k v.
Proof.
  intros Hne. unfold js_set. destruct (own o k); [done|].
  destruct (String.eqb k "__proto__") eqn:E; [|done].
  by apply String.eqb_eq in E.
Qed.

Lemma renewed_expire (cfg : Config) (d : obj) (t ta : Z) :
  js_get (renewed cfg d t ta) "_expire"
  = match window (expireAfterSeconds cfg) with
    | Some n => VStr (toISOString (t + n * 1000))
    | None => VNull
    end.
Proof.
  unfold renewed. rewrite !js_set_ordinary by done.
  unfold js_get. by rewrite own_put_ne, own_put_eq.
Qed.

(** C4, as it holds: a [fetchSession] that loads data passing the
    validity test computes the new expiry from the clock reading [t].
    When that instant is a time value (as it is when no expiry is to be
    computed), the session is returned with [_expire] renewed: to the
    reading plus the configured number of seconds when that number is
    not zero, and to null when none is configured or the number is zero.
    When the instant is beyond the range of [Date] the call throws.  The
    [_expire] that was loaded plays no part. *)
Theorem fetchSession_renews_expiry (cfg : Config) (w : World)
    (id : string) (d : obj) :
  loaded cfg w id d ->
  valid_at d (Date_now (ticks w)) = true ->
  let t := (ticks w + validity_readings d)%nat in
  if expiry_fits cfg t then
    exists s w',
      fetchSession cfg w = (Return (Some s), w') /\
      sid s = id /\
      (t < ticks w')%nat /\
      (forall n, expireAfterSeconds cfg = Some n -> n <> 0 ->
         js_get (data s) "_expire"
         = VStr (toISOString (Date_now t + n * 1000))) /\
      (expireAfterSeconds cfg = None \/ expireAfterSeconds cfg = Some 0 ->
         js_get (data s) "_expire" = VNull)
  else
    exists w', fetchSession cfg w = (Throw, w').
Proof.
  intros Hload Hvalid t.
  pose proof (fetchSession_valid cfg w id d Hload Hvalid) as Hfetch.
  cbv zeta in Hfetch. fold t in Hfetch.
  destruct (expiry_fits cfg t); [|eauto].
  eexists _, _. split; [exact Hfetch|]. split; [done|].
  cbn [ticks data]. split; [lia|]. rewrite renewed_expire. split.
  - intros n -> Hn. cbn [window]. by rewrite (proj2 (Z.eqb_neq n 0) Hn).
  - by intros [-> | ->].
Qed.

(** *** [storeState] with rotation *)

(** C7: on a keyed store, [storeState(session, cookies, true)] deletes
    the entry of the old identifier, stores the session's data as they
    are under a newly generated identifier, sets the transport cookie
    to it and persists the same data under it; no field changes and
    the clock is not read.  When [_delete] is not set these are all its
    calls, and afterwards the new identifier holds the data, the
    transport cookie holds the new identifier and the old identifier,
    when different from the new one, has no entry.  On a
    cookie-embedded store the flag changes nothing. *)
Theorem storeState_rotates (cfg : Config) (s : Session) (w : World) :
  (store cfg = Keyed ->
   let new := nanoid (minted w) in
   exists w' rest,
     storeState cfg (Some s) true w = (Return tt, w') /\
     trace w' = (trace w ++
                 [ StoreDelete (sid s);
                   StoreCreate new (data s);
                   CookieSet (sessionCookieName cfg) new;
                   StorePersist new (data s) ] ++ rest)%list /\
     ticks w' = ticks w /\
     (truthy (js_get (data s) "_delete") = false ->
        rest = [] /\
        entries w' !! new = Some (data s) /\
        jar w' !! sessionCookieName cfg = Some new /\
        (new <> sid s -> entries w' !! sid s = None))) /\
  (forall cs, store cfg = CookieEmbedded cs ->
     storeState cfg (Some s) true w = storeState cfg (Some s) false w).
Proof.
  destruct cfg as [[|cs] exp name], s as [i d], w as [en jr tk mn tr].
  all: split; try discriminate; try (intros cs' _; reflexivity).
  intros _. cbn [store sessionCookieName minted trace ticks sid data].
  run. destruct (truthy (js_get d "_delete")); run.
  - eexists _, _. split; [reflexivity|]. cbn [trace ticks].
    rewrite <- !app_assoc. split; [reflexivity|]. split; [done|done].
  - eexists _, []. split; [reflexivity|]. cbn [trace ticks entries jar].
    rewrite <- !app_assoc. split; [reflexivity|]. split; [done|].
    intros _. split; [done|]. split; [apply lookup_insert_eq|].
    split; [apply lookup_insert_eq|]. intros Hne.
    by rewrite !lookup_insert_ne, lookup_delete_eq.
Qed.

(** *** Repeated fetches of a session that never expires *)

Lemma present_Some (c : option string) (x : string) :
  present c = Some x -> c = Some x /\ present (Some x) = Some x.
Proof.
  destruct c as [y|]; [|done]. cbn. destruct (String.eqb y "") eqn:E; [done|].
  intros [= ->]. by rewrite E.
Qed.

Lemma loaded_after_fetch (cfg : Config) (w w' : World) (id : string) (d : obj) :
  match store cfg with
  | Keyed => True
  | CookieEmbedded cs => sessionCookieName cfg <> sessionDataCookieName cs
  end ->
  loaded cfg w id d ->
  entries w' = entries w ->
  jar w' = <[sessionCookieName cfg := id]> (jar w) ->
  loaded cfg w' id d.
Proof.
  unfold loaded. intros Hnames Hload -> ->. destruct (store cfg) as [|cs].
  - destruct Hload as [Hc Hd]. split; [|done].
    rewrite lookup_insert_eq. by apply present_Some in Hc as [_ Hc].
  - destruct Hload as (-> & c & p & Hc & Hrest). split; [done|].
    exists c, p. by rewrite lookup_insert_ne.
Qed.

Lemma renewed_renewal (cfg : Config) (d : obj) (t ta : Z) :
  renewal_of cfg d (renewed cfg d t ta) t ta.
Proof.
  unfold renewal_of, renewed, expire_from. rewrite !js_set_ordinary by done.
  split; [by rewrite own_put_ne, own_put_eq|].
  split; [by rewrite own_put_eq|].
  intros k H1 H2. by rewrite !own_put_ne.
Qed.

Lemma expiry_fits_no_window (cfg : Config) (t : nat) :
  expiry_readings cfg = 0%nat -> expiry_fits cfg t = true.
Proof. unfold expiry_readings, expiry_fits. by destruct (window _). Qed.


End HandlerProperties.

(** ** The handlers on the sample runtime *)

Lemma storeState_delete_ends_removed_witness :
  let rt := Sample.runtime Sample.clock in
  let cfg := Sample.keyed None in
  let s := mkSession Sample.old Sample.doomed in
  let w := Sample.stored Sample.doomed in
  js_get (data s) "_delete" = VBool true /\
  exists w' calls,
    storeState cfg (Some s) true w = (Return tt, w') /\
    trace w' = (trace w ++ calls)%list /\
    let new := nanoid (minted w) in
    calls = [ StoreDelete Sample.old;
              StoreCreate new Sample.doomed;
              CookieSet "session" new;
              StorePersist new Sample.doomed;
              StoreDelete new;
              CookieDelete "session" ] /\
    (new <> Sample.old ->
     forall e, In e calls -> writes_under Sample.old e = false) /\
    entries w' = delete new (delete Sample.old (entries w)) /\
    jar w' = delete "session" (jar w).
Proof.
  intros rt cfg s w.
  assert (js_get (data s) "_delete" = VBool true) as H1 by reflexivity.
  split; [assumption|].
  exact (storeState_delete_ends_removed cfg s true w H1).
Defined.

(** C1 as worded fails: without rotation, [storeState] on a session whose
    [_delete] is true first persists the data under the session's own
    identifier (keyed store), or sets the payload cookie with them
    (cookie-embedded store), and only then deletes. *)
Lemma storeState_delete_persists_first :
  trace (storeState (rt := Sample.runtime Sample.clock) (Sample.keyed None)
           (Some (mkSession Sample.old Sample.doomed)) false
           (Sample.stored Sample.doomed)).2
  = [ StorePersist Sample.old Sample.doomed;
      StoreDelete Sample.old;
      CookieDelete "session" ] /\
  trace (storeState (rt := Sample.runtime Sample.clock) (Sample.embedded None)
           (Some (mkSession "" Sample.doomed)) false
           (Sample.sealed Sample.doomed)).2
  = [ CookieSet "session_data"
        (Sample.encrypt (Json.stringify (VObj Sample.doomed)) "secret");
      CookieDelete "session_data" ].
Proof. split; reflexivity. Qed.

Lemma fetchSession_replaces_expired_witness :
  let rt := Sample.runtime Sample.clock in
  let cfg := Sample.keyed (Some 3600) in
  let w := Sample.stored Sample.expired in
  store cfg = Keyed /\
  loaded cfg w Sample.old Sample.expired /\
  js_get Sample.expired "_expire" = VStr "2023-11-14T22:13:19.000Z" /\
  Date_parse "2023-11-14T22:13:19.000Z" = Some 1699999999000 /\
  1699999999000 <= Date_now (ticks w) /\
  nanoid (minted w) <> Sample.old /\
  exists w',
    entries w' !! Sample.old = None /\
    exists s ta,
      fetchSession cfg w = (Return (Some s), w') /\
      sid s = "sid-00000000000000000" /\
      sid s <> Sample.old /\
      data s = [ ("_flash", VObj []);
                 ("_accessed", VStr (toISOString (Date_now ta)));
                 ("_expire", VStr (toISOString (Date_now 2 + 3600 * 1000)));
                 ("_delete", VBool false) ] /\
      (2 <= ta < ticks w')%nat /\
      is_Some (entries w' !! sid s) /\
      jar w' !! "session" = Some (sid s).
Proof.
  intros rt cfg w.
  assert (store cfg = Keyed) as H1 by reflexivity.
  assert (loaded cfg w Sample.old Sample.expired) as H2 by (split; reflexivity).
  assert (js_get Sample.expired "_expire" = VStr "2023-11-14T22:13:19.000Z")
    as H3 by reflexivity.
  assert (Date_parse "2023-11-14T22:13:19.000Z" = Some 1699999999000)
    as H4 by (vm_compute; reflexivity).
  assert (1699999999000 <= Date_now (ticks w)) as H5 by (vm_compute; discriminate).
  assert (nanoid (minted w) <> Sample.old) as H6 by (vm_compute; discriminate).
  repeat (split; [assumption|]).
  exact (fetchSession_replaces_expired cfg w Sample.old _ Sample.expired _
           H1 H2 H3 H4 H5 H6).
Defined.

(** C2 as worded fails for a window that leads beyond the range of
    [Date]: with 10^13 seconds configured, [fetchSession] on an expired
    session deletes the old entry and throws; it returns no session. *)
Lemma fetchSession_replaces_expired_beyond_range :
  let rt := Sample.runtime Sample.clock in
  let cfg := Sample.keyed (Some 10000000000000) in
  let w := Sample.stored Sample.expired in
  loaded cfg w Sample.old Sample.expired /\
  valid_at Sample.expired (Date_now (ticks w)) = false /\
  (fetchSession cfg w).1 = Throw /\
  trace (fetchSession cfg w).2
  = [ CookieGet "session"; StoreGet Sample.old; StoreDelete Sample.old ] /\
  ~ exists s w', fetchSession cfg w = (Return (Some s), w').
Proof.
  intros rt cfg w.
  assert ((fetchSession cfg w).1 = Throw) as H by (vm_compute; reflexivity).
  split; [split; reflexivity|]. split; [vm_compute; reflexivity|].
  split; [exact H|]. split; [vm_compute; reflexivity|].
  intros (s & w' & H'). rewrite H' in H. discriminate H.
Qed.

Lemma fetchSession_unreadable_payload_is_null_witness :
  let rt := Sample.runtime Sample.clock in
  let cfg := Sample.embedded None in
  let cs := mkCookieStore "secret" "session_data" in
  let w := mkWorld ∅ {[ "session_data" := "sealed:secret:{oops" ]} 0 0 [] in
  store cfg = CookieEmbedded cs /\
  present (jar w !! sessionDataCookieName cs) = Some "sealed:secret:{oops" /\
  (decryptCryptoJSAES "sealed:secret:{oops" (encryptionKey cs) = None \/
   exists p, decryptCryptoJSAES "sealed:secret:{oops" (encryptionKey cs) = Some p /\
             JSON_parse p = None) /\
  fetchSession cfg w
  = (Return None,
     mkWorld (entries w) (jar w) (ticks w) (minted w)
       (trace w ++ [CookieGet (sessionDataCookieName cs)])).
Proof.
  intros rt cfg cs w.
  assert (store cfg = CookieEmbedded cs) as H1 by reflexivity.
  assert (present (jar w !! sessionDataCookieName cs) = Some "sealed:secret:{oops")
    as H2 by reflexivity.
  assert (decryptCryptoJSAES "sealed:secret:{oops" (encryptionKey cs) = None \/
          exists p, decryptCryptoJSAES "sealed:secret:{oops" (encryptionKey cs) = Some p /\
                    JSON_parse p = None) as H3
    by (right; exists "{oops"; split; reflexivity).
  repeat (split; [assumption|]).
  exact (fetchSession_unreadable_payload_is_null cfg cs w _ H1 H2 H3).
Defined.

(** C3 as worded fails: with a payload cookie that does not decrypt, and
    with one that decrypts to a text that does not parse, [fetchSession]
    returns null and creates no session. *)
Lemma fetchSession_unreadable_payload_no_session :
  (fetchSession (rt := Sample.runtime Sample.clock) (Sample.embedded None)
     (mkWorld ∅ {[ "session_data" := "garbage" ]} 0 0 [])).1 = Return None /\
  (fetchSession (rt := Sample.runtime Sample.clock) (Sample.embedded None)
     (mkWorld ∅ {[ "session_data" := "sealed:secret:{oops" ]} 0 0 [])).1
  = Return None.
Proof. split; reflexivity. Qed.

Lemma fetchSession_renews_expiry_witness :
  let rt := Sample.runtime Sample.clock in
  let cfg := Sample.keyed (Some 3600) in
  let w := Sample.stored Sample.live in
  loaded cfg w Sample.old Sample.live /\
  valid_at Sample.live (Date_now (ticks w)) = true /\
  exists s w',
    fetchSession cfg w = (Return (Some s), w') /\
    sid s = Sample.old /\
    (1 < ticks w')%nat /\
    (forall n, expireAfterSeconds cfg = Some n -> n <> 0 ->
       js_get (data s) "_expire" = VStr (toISOString (Date_now 1 + n * 1000))) /\
    (expireAfterSeconds cfg = None \/ expireAfterSeconds cfg = Some 0 ->
       js_get (data s) "_expire" = VNull).
Proof.
  intros rt cfg w.
  assert (loaded cfg w Sample.old Sample.live) as H1 by (split; reflexivity).
  assert (valid_at Sample.live (Date_now (ticks w)) = true) as H2
    by (vm_compute; reflexivity).
  repeat (split; [assumption|]).
  exact (fetchSession_renews_expiry cfg w Sample.old Sample.live H1 H2).
Defined.

(** C4 as worded fails in two ways.  With a window of 0 seconds
    configured, a valid fetch leaves [_expire] null, not the present
    instant; with a window of 10^13 seconds the expiry instant is beyond
    the range of [Date] and the fetch throws. *)
Lemma fetchSession_renews_expiry_not_always :
  let rt := Sample.runtime Sample.clock in
  let w := Sample.stored Sample.live in
  loaded (Sample.keyed (Some 0)) w Sample.old Sample.live /\
  valid_at Sample.live (Date_now (ticks w)) = true /\
  (exists s w',
     fetchSession (Sample.keyed (Some 0)) w = (Return (Some s), w') /\
     js_get (data s) "_expire" = VNull /\
     forall t, js_get (data s) "_expire" <> VStr (toISOString (Date_now t + 0 * 1000))) /\
  (fetchSession (Sample.keyed (Some 10000000000000)) w).1 = Throw.
Proof.
  intros rt w. split; [split; reflexivity|]. split; [vm_compute; reflexivity|].
  split; [|vm_compute; reflexivity].
  assert (exists s w',
            fetchSession (Sample.keyed (Some 0)) w = (Return (Some s), w') /\
            js_get (data s) "_expire" = VNull) as (s & w' & Hfetch & Hnull)
    by (vm_compute; eexists _, _; split; reflexivity).
  exists s, w'. split; [exact Hfetch|]. split; [exact Hnull|].
  intros t. rewrite Hnull. discriminate.
Qed.

Lemma storeState_rotates_witness :
  let rt := Sample.runtime Sample.clock in
  let cfg := Sample.keyed (Some 3600) in
  let s := mkSession Sample.old Sample.live in
  let w := Sample.stored Sample.live in
  store cfg = Keyed /\
  truthy (js_get (data s) "_delete") = false /\
  "sid-00000000000000000" <> Sample.old /\
  exists w',
    storeState cfg (Some s) true w = (Return tt, w') /\
    trace w' = [ StoreDelete Sample.old;
                 StoreCreate "sid-00000000000000000" Sample.live;
                 CookieSet "session" "sid-00000000000000000";
                 StorePersist "sid-00000000000000000" Sample.live ] /\
    entries w' !! "sid-00000000000000000" = Some Sample.live /\
    jar w' !! "session" = Some "sid-00000000000000000" /\
    entries w' !! Sample.old = None.
Proof.
  intros rt cfg s w.
  assert (store cfg = Keyed) as H1 by reflexivity.
  assert (truthy (js_get (data s) "_delete") = false) as H2 by reflexivity.
  assert ("sid-00000000000000000" <> Sample.old) as H3 by discriminate.
  repeat (split; [assumption|]).
  destruct (proj1 (storeState_rotates cfg s w) H1)
    as (w' & rest & Hrun & Htrace & _ & Hstate).
  destruct (Hstate H2) as (-> & Hnew & Hcookie & Hold).
  exists w'. split; [exact Hrun|]. split; [exact Htrace|].
  split; [exact Hnew|]. split; [exact Hcookie|exact (Hold H3)].
Defined.



(** C8 on the code: with a cookie-embedded store, [fetchSession] on a
    readable payload sets the transport cookie [session], to the empty
    identifier, whereas the [createSession] handler, which guards the
    same call with [!(store instanceof CookieStore)], sets no cookie. *)
Lemma fetchSession_embedded_sets_identifier_cookie :
  let rt := Sample.runtime Sample.clock in
  let cfg := Sample.embedded None in
  let fetched := fetchSession cfg (Sample.sealed Sample.fresh) in
  fetched.1
  = Return (Some (mkSession ""
      [ ("_flash", VObj []);
        ("_accessed", VStr "2023-11-14T22:13:20.000Z");
        ("_expire", VNull);
        ("_delete", VBool false) ])) /\
  trace fetched.2 = [ CookieGet "session_data"; CookieSet "session" "" ] /\
  jar fetched.2 !! "session" = Some "" /\
  trace (createSession cfg Sample.world0).2 = [].
Proof. vm_compute. repeat split; reflexivity. Qed.

(** ** The JSON codec reads back what it writes *)

Module JsonFacts.

Import Json.

(** Reading the escape of a character gives the character. *)
Lemma parse_chars_escape (c : ascii) (t : string) :
  parse_chars (escape c ++ t)
  = '(x, r) ← parse_chars t; Some (String c x, r).
Proof. destruct c as [[] [] [] [] [] [] [] []]; reflexivity. Qed.

Lemma app_cons (c : ascii) (s t : string) : (String c s ++ t = String c (s ++ t))%string.
Proof. reflexivity. Qed.

Lemma app_nil (t : string) : ("" ++ t = t)%string.
Proof. reflexivity. Qed.

Lemma app_assoc_string (a b c : string) : ((a ++ b) ++ c = a ++ (b ++ c))%string.
Proof. induction a as [|x a IH]; [done|]. by rewrite !app_cons, IH. Qed.

Lemma parse_chars_quote (s rest : string) :
  parse_chars (escape_all s ++ String dquote rest) = Some (s, rest).
Proof.
  induction s as [|c s IH]; [reflexivity|].
  cbn [escape_all]. rewrite app_assoc_string, parse_chars_escape, IH. reflexivity.
Qed.

Lemma read_uint_print (u : Decimal.uint) (rest : string) :
  stops rest = true -> read_uint (print_uint u ++ rest) = (u, rest).
Proof.
  intros Hstop. induction u; cbn [print_uint]; rewrite ?app_cons, ?app_nil;
    try (cbn [read_uint]; rewrite IHu; reflexivity).
  destruct rest as [|c rest]; [reflexivity|]. simpl in Hstop. simpl.
  destruct (digit_of c) eqn:E; [|reflexivity].
  destruct (Ascii.eqb c ",") eqn:E1.
  - apply Ascii.eqb_eq in E1. subst c. discriminate E.
  - destruct (Ascii.eqb c "}") eqn:E2; [|discriminate Hstop].
    apply Ascii.eqb_eq in E2. subst c. discriminate E.
Qed.

Lemma stops_continues (rest : string) : stops rest = true -> continues_number rest = false.
Proof.
  destruct rest as [|c rest]; [done|]. cbn.
  destruct (Ascii.eqb c ",") eqn:E1.
  - apply Ascii.eqb_eq in E1. by subst c.
  - destruct (Ascii.eqb c "}") eqn:E2; [|done].
    apply Ascii.eqb_eq in E2. by subst c.
Qed.

(** The decimal digits of a positive number do not start with 0. *)
Lemma to_uint_head (p : positive) (u : Decimal.uint) : Pos.to_uint p <> Decimal.D0 u.
Proof.
  intros H.
  pose proof (DecimalPos.Unsigned.to_of (Pos.to_uint p)) as Hnorm.
  rewrite DecimalPos.Unsigned.of_to in Hnorm. cbn [N.to_uint] in Hnorm.
  rewrite H in Hnorm. unfold Decimal.unorm in Hnorm.
  destruct (Decimal.nzhead (Decimal.D0 u)) eqn:E; try discriminate Hnorm.
  - injection Hnorm as ->.
    by apply (DecimalPos.Unsigned.to_uint_nonzero p).
  - by apply DecimalFacts.nzhead_nonzero in E.
Qed.

Lemma parse_number_print (negative : bool) (u : Decimal.uint) (rest : string) :
  stops rest = true ->
  u <> Decimal.Nil ->
  (forall u', u = Decimal.D0 u' -> u' = Decimal.Nil) ->
  parse_number negative (print_uint u ++ rest)
  = Some (VNum (NInt (Z.of_int (if negative then Decimal.Neg u else Decimal.Pos u))),
          rest).
Proof.
  intros Hstop Hnil Hzero. unfold parse_number.
  rewrite read_uint_print, (stops_continues rest) by done.
  destruct u as [|u| | | | | | | | | ]; try done.
  by rewrite (Hzero u eq_refl).
Qed.

Lemma parse_value_digits (fuel : nat) (u : Decimal.uint) (rest : string) :
  u <> Decimal.Nil ->
  parse_value (S fuel) (print_uint u ++ rest)
  = parse_number false (print_uint u ++ rest).
Proof. intros Hnil. destruct u; [done|reflexivity..]. Qed.

Lemma parse_value_int (fuel : nat) (z : Z) (rest : string) :
  stops rest = true ->
  parse_value (S fuel) (print_int z ++ rest) = Some (VNum (NInt z), rest).
Proof.
  intros Hstop. rewrite <- (DecimalZ.of_to z) at 2. unfold print_int.
  destruct z as [|p|p]; cbn [Z.to_int].
  - rewrite parse_value_digits, parse_number_print; try done.
    by intros u' [= <-].
  - rewrite parse_value_digits, parse_number_print; try done.
    + apply DecimalPos.Unsigned.to_uint_nonnil.
    + intros u' H. by apply to_uint_head in H.
    + apply DecimalPos.Unsigned.to_uint_nonnil.
  - change (parse_value (S fuel) (("-" ++ print_uint (Pos.to_uint p)) ++ rest))
      with (parse_number true (print_uint (Pos.to_uint p) ++ rest)).
    rewrite parse_number_print; try done.
    + apply DecimalPos.Unsigned.to_uint_nonnil.
    + intros u' H. by apply to_uint_head in H.
Qed.

Lemma length_app (a b : string) :
  String.length (a ++ b) = (String.length a + String.length b)%nat.
Proof. induction a as [|c a IH]; [done|]. rewrite app_cons. cbn. by rewrite IH. Qed.

Lemma app_nil_r (a : string) : (a ++ "")%string = a.
Proof. induction a as [|c a IH]; [done|]. by rewrite app_cons, IH. Qed.

(** Induction on values that reaches the members of an object. *)
Lemma value_nested_ind (P : value -> Prop) :
  P VUndef -> P VNull -> (forall b, P (VBool b)) -> (forall n, P (VNum n)) ->
  (forall s, P (VStr s)) ->
  (forall o, Forall (fun kv => P (snd kv)) o -> P (VObj o)) ->
  (forall f, P (VNative f)) ->
  forall v, P v.
Proof.
  intros Hu Hn Hb Hnum Hs Ho Hf. fix IH 1.
  intros [| |b|n|s|o|f];
    [exact Hu|exact Hn|apply Hb|apply Hnum|apply Hs| |apply Hf].
  apply Ho. induction o as [|[k x] o IHo]; constructor; [apply IH|exact IHo].
Qed.

Lemma own_None_keys (o : obj) (k : string) :
  own o k = None <-> ~ In k (map fst o).
Proof.
  induction o as [|[k' v] o IH]; cbn; [tauto|].
  destruct (String.eqb k k') eqn:E.
  - apply String.eqb_eq in E. subst. split; [done|]. intros H. destruct H. by left.
  - apply String.eqb_neq in E. rewrite IH. split.
    + intros H [H'|H']; [congruence|done].
    + intros H H'. apply H. by right.
Qed.

Lemma put_fresh (o : obj) (k : string) (v : value) :
  own o k = None -> put o k v = (o ++ [(k, v)])%list.
Proof.
  induction o as [|[k' v'] o IH]; cbn; [done|].
  destruct (String.eqb k k'); [done|]. intros H. by rewrite IH.
Qed.

Lemma distinct_NoDup (keys : list string) : distinct keys = true <-> List.NoDup keys.
Proof.
  induction keys as [|k keys IH]; cbn.
  - split; [constructor|done].
  - rewrite andb_true_iff, negb_true_iff, IH. split.
    + intros [Hk Hrest]. constructor; [|done]. intros Hin.
      assert (existsb (String.eqb k) keys = true) as H; [|congruence].
      apply existsb_exists. exists k. split; [done|apply String.eqb_refl].
    + intros H. inversion H as [|? ? Hk Hrest]; subst. split; [|done].
      destruct (existsb (String.eqb k) keys) eqn:E; [|done].
      apply existsb_exists in E as (k' & Hin & Heq).
      apply String.eqb_eq in Heq. by subst.
Qed.

Lemma write_members_cons (first : bool) (k : string) (x : value) (t : string)
    (o : list (string * value)) :
  serialize x = Some t ->
  write_members serialize first ((k, x) :: o)
  = ((if first then "" else ",") ++ quote k ++ ":" ++ t
       ++ write_members serialize false o)%string.
Proof. intros H. cbn [write_members]. by rewrite H. Qed.

Lemma stops_write_members (o : list (string * value)) (rest : string) :
  Forall (fun kv => is_Some (serialize (snd kv))) o ->
  stops (write_members serialize false o ++ rest) = true.
Proof.
  intros Ho. destruct o as [|[k x] o]; [reflexivity|].
  inversion Ho as [|? ? [t Ht] _]; subst. cbn [snd] in Ht.
  by rewrite (write_members_cons _ _ _ t _ Ht).
Qed.

(** One member: its key, the colon, its value; then a comma and the
    next member, or the closing brace. *)
Lemma parse_members_step (fuel : nat) (acc : obj) (k : string) (x : value)
    (t tail : string) :
  (forall rest, stops rest = true -> parse_value fuel (t ++ rest) = Some (x, rest)) ->
  stops tail = true ->
  parse_members (S fuel) acc (quote k ++ ":" ++ t ++ tail)
  = match tail with
    | String c r =>
        if Ascii.eqb c "," then parse_members fuel (put acc k x) (skip_ws r)
        else if Ascii.eqb c "}" then Some (VObj (put acc k x), r)
        else None
    | EmptyString => None
    end.
Proof.
  intros Hx Htail. unfold quote. rewrite app_cons.
  cbn [parse_members]. rewrite Ascii.eqb_refl.
  rewrite app_assoc_string, app_cons, parse_chars_quote.
  cbn [mbind option_bind]. rewrite app_nil, app_cons, app_nil.
  change (skip_ws (String ":" (t ++ tail))) with (String ":" (t ++ tail)).
  change (expect ":" (String ":" (t ++ tail))) with (Some (t ++ tail)).
  cbn [mbind option_bind]. rewrite Hx by done. cbn [mbind option_bind].
  destruct tail as [|c r]; [done|]. cbn [stops] in Htail.
  destruct (Ascii.eqb c ",") eqn:E1.
  - apply Ascii.eqb_eq in E1. subst c. reflexivity.
  - destruct (Ascii.eqb c "}") eqn:E2; [|done].
    apply Ascii.eqb_eq in E2. subst c. reflexivity.
Qed.

Lemma skip_ws_quote (k rest : string) : skip_ws (quote k ++ rest) = (quote k ++ rest)%string.
Proof. reflexivity. Qed.

Lemma write_members_comma (k : string) (x : value) (t : string)
    (o : list (string * value)) :
  serialize x = Some t ->
  write_members serialize false ((k, x) :: o)
  = String "," (write_members serialize true ((k, x) :: o)).
Proof. intros H. by rewrite !(write_members_cons _ _ _ t _ H). Qed.

Lemma skip_ws_members (k : string) (x : value) (t : string)
    (o : list (string * value)) (rest : string) :
  serialize x = Some t ->
  skip_ws (write_members serialize true ((k, x) :: o) ++ rest)
  = (write_members serialize true ((k, x) :: o) ++ rest)%string.
Proof.
  intros H. rewrite (write_members_cons _ _ _ t _ H), app_nil, app_assoc_string.
  apply skip_ws_quote.
Qed.

(** The members written for [o] are read back in order behind [acc],
    none of their keys being in [acc] already. *)
Lemma parse_members_write (o : list (string * value)) :
  Forall (fun kv => reads_back (snd kv)) o ->
  o <> [] ->
  forall (acc : obj) (fuel : nat) (rest : string),
    List.NoDup (map fst (acc ++ o)) ->
    (String.length (write_members serialize true o) < fuel)%nat ->
    parse_members fuel acc (write_members serialize true o ++ rest)
    = Some (VObj (acc ++ o), rest).
Proof.
  induction 1 as [|[k x] o (t & Ht & Hx) Ho IH]; [done|].
  intros _ acc fuel rest Hnd Hfuel. cbn [snd] in *.
  rewrite (write_members_cons _ _ _ t _ Ht), app_nil in *.
  rewrite !length_app in Hfuel. cbn [String.length] in Hfuel.
  destruct fuel as [|fuel]; [lia|].
  assert (own acc k = None) as Hfresh.
  { apply own_None_keys. intros Hin. rewrite map_app in Hnd. cbn [map fst] in Hnd.
    apply List.NoDup_remove_2 in Hnd. apply Hnd, in_or_app. by left. }
  assert (Forall (fun kv => is_Some (serialize (snd kv))) o) as Hsome.
  { eapply Forall_impl; [exact Ho|]. intros kv (t' & Ht' & _). eauto. }
  rewrite !app_assoc_string.
  rewrite (parse_members_step fuel acc k x t);
    [|intros r Hr; apply Hx; [lia|done]|by apply stops_write_members].
  rewrite (put_fresh _ _ _ Hfresh).
  destruct o as [|[k2 x2] o2].
  - reflexivity.
  - inversion Ho as [|? ? (t2 & Ht2 & _) _]; subst. cbn [snd] in Ht2.
    rewrite (write_members_comma _ _ t2) in * by done.
    rewrite app_cons. cbn [String.length] in Hfuel.
    change (parse_members fuel (acc ++ [(k, x)])%list
              (skip_ws (write_members serialize true ((k2, x2) :: o2) ++ rest))
            = Some (VObj (acc ++ (k, x) :: (k2, x2) :: o2)%list, rest)).
    rewrite (skip_ws_members _ _ t2) by done.
    rewrite IH; [|done| |lia].
    + by rewrite <- app_assoc.
    + by rewrite <- app_assoc.
Qed.

Lemma parse_value_quote (fuel : nat) (s rest : string) :
  parse_value (S fuel) (quote s ++ rest) = Some (VStr s, rest).
Proof.
  unfold quote. rewrite app_cons.
  change (('(t, r) ← parse_chars ((escape_all s ++ String dquote "") ++ rest);
           Some (VStr t, r)) = Some (VStr s, rest)).
  by rewrite app_assoc_string, app_cons, app_nil, parse_chars_quote.
Qed.

Lemma forallb_Forall_safe (P : value -> Prop) (o : list (string * value)) :
  Forall (fun kv => json_safe (snd kv) = true -> P (snd kv)) o ->
  forallb (fun kv => json_safe (snd kv)) o = true ->
  Forall (fun kv => P (snd kv)) o.
Proof.
  induction 1 as [|kv o Hkv _ IH]; cbn; [constructor|].
  rewrite andb_true_iff. intros [H1 H2]. constructor; auto.
Qed.

Lemma json_safe_reads_back (v : value) : json_safe v = true -> reads_back v.
Proof.
  induction v as [| |b|n|s|o IH|f] using value_nested_ind; intros Hsafe;
    try discriminate Hsafe.
  - exists "null". split; [done|]. intros [|fuel] rest Hfuel _; [cbn in Hfuel; lia|done].
  - exists (if b then "true" else "false"). split; [done|].
    intros [|fuel] rest Hfuel _; [lia|]. by destruct b.
  - destruct n as [z| |]; try discriminate Hsafe.
    exists (print_int z). split; [done|].
    intros [|fuel] rest Hfuel Hstop; [lia|]. by apply parse_value_int.
  - exists (quote s). split; [done|].
    intros [|fuel] rest Hfuel _; [lia|]. by apply parse_value_quote.
  - cbn [json_safe] in Hsafe. apply andb_true_iff in Hsafe as [Hkeys Hall].
    apply distinct_NoDup in Hkeys.
    pose proof (forallb_Forall_safe _ _ IH Hall) as Hback.
    exists ("{" ++ write_members serialize true o)%string. split; [done|].
    intros [|fuel] rest Hfuel _; [lia|]. rewrite app_cons, app_nil in *.
    cbn [String.length] in Hfuel.
    destruct o as [|[k x] o]; [reflexivity|].
    inversion Hback as [|? ? (t & Ht & _) _]; subst. cbn [snd] in Ht.
    transitivity (parse_members fuel []
                    (write_members serialize true ((k, x) :: o) ++ rest)).
    + rewrite (write_members_cons _ _ _ t _ Ht), app_nil. reflexivity.
    + rewrite parse_members_write; [done|done|done|done|lia].
Qed.

(** [JSON.parse(JSON.stringify(v))] is [v] for the data C6 speaks of. *)
Lemma parse_stringify (v : value) :
  json_safe v = true -> Json.parse (Json.stringify v) = Some v.
Proof.
  intros Hsafe. destruct (json_safe_reads_back v Hsafe) as (t & Ht & Hparse).
  unfold Json.stringify, Json.parse. rewrite Ht.
  rewrite <- (app_nil_r t) at 2. rewrite Hparse; [done|lia|done].
Qed.

(** What [Json.parse] reads is made of mappings, strings, booleans,
    null and integers. *)
Lemma shape_put (acc : obj) (k : string) (v : value) :
  forallb (fun kv => json_shape (snd kv)) acc = true ->
  json_shape v = true ->
  forallb (fun kv => json_shape (snd kv)) (put acc k v) = true.
Proof.
  intros Hacc Hv. induction acc as [|[k' v'] acc IH]; cbn in *.
  - by rewrite Hv.
  - apply andb_true_iff in Hacc as [H1 H2].
    destruct (String.eqb k k'); cbn; apply andb_true_iff; auto.
Qed.

Lemma parse_number_shape (negative : bool) (s : string) (v : value) (r : string) :
  parse_number negative s = Some (v, r) -> json_shape v = true.
Proof.
  unfold parse_number. destruct (read_uint s) as [u rest]. intros H.
  repeat match type of H with
         | context [match ?x with _ => _ end] => destruct x
         end; try discriminate H; by injection H as <- <-.
Qed.

Lemma parse_shape_fuel (fuel : nat) :
  (forall s v r, parse_value fuel s = Some (v, r) -> json_shape v = true) /\
  (forall acc s v r,
     forallb (fun kv => json_shape (snd kv)) acc = true ->
     parse_members fuel acc s = Some (v, r) -> json_shape v = true).
Proof.
  induction fuel as [|fuel [IHv IHm]]; [split; intros; discriminate|].
  split.
  - intros s v r H. cbn [parse_value] in H.
    destruct (skip_ws s) as [|c rest]; [discriminate H|].
    destruct (Ascii.eqb c "{").
    { destruct (skip_ws rest) as [|c' rest']; [discriminate H|].
      destruct (Ascii.eqb c' "}"); [by injection H as <- <-|].
      by apply (IHm [] _ _ _ eq_refl H). }
    destruct (Ascii.eqb c dquote).
    { destruct (parse_chars rest) as [[t r0]|]; [|discriminate H].
      by injection H as <- <-. }
    destruct (Ascii.eqb c "n").
    { destruct (expect "ull" rest); [|discriminate H]. by injection H as <- <-. }
    destruct (Ascii.eqb c "t").
    { destruct (expect "rue" rest); [|discriminate H]. by injection H as <- <-. }
    destruct (Ascii.eqb c "f").
    { destruct (expect "alse" rest); [|discriminate H]. by injection H as <- <-. }
    destruct (Ascii.eqb c "-"); by apply parse_number_shape in H.
  - intros acc s v r Hacc H. cbn [parse_members] in H.
    destruct s as [|c rest]; [discriminate H|].
    destruct (Ascii.eqb c dquote); [|discriminate H].
    destruct (parse_chars rest) as [[k r0]|]; [|discriminate H].
    cbn [mbind option_bind] in H.
    destruct (expect ":" (skip_ws r0)) as [r1|]; [|discriminate H].
    cbn [mbind option_bind] in H.
    destruct (parse_value fuel r1) as [[x r2]|] eqn:Hx; [|discriminate H].
    cbn [mbind option_bind] in H.
    pose proof (shape_put acc k x Hacc (IHv _ _ _ Hx)) as Hput.
    destruct (skip_ws r2) as [|c' r']; [discriminate H|].
    destruct (Ascii.eqb c' ","); [by apply (IHm _ _ _ _ Hput H)|].
    destruct (Ascii.eqb c' "}"); [|discriminate H].
    by injection H as <- <-.
Qed.

Lemma parse_shape (t : string) (v : value) :
  Json.parse t = Some v -> json_shape v = true.
Proof.
  unfold Json.parse. intros H.
  destruct (parse_value _ t) as [[x rest]|] eqn:Hx; [|discriminate H].
  cbn [mbind option_bind] in H.
  destruct (skip_ws rest); [|discriminate H]. injection H as <-.
  by apply (proj1 (parse_shape_fuel _) _ _ _ Hx).
Qed.

End JsonFacts.

(** ** The cookie-embedded store: what is persisted is read back *)

Lemma expect_prefix (a b : string) : Json.expect a (a ++ b) = Some b.
Proof.
  induction a as [|c a IH]; [done|].
  rewrite JsonFacts.app_cons. cbn [Json.expect]. by rewrite Ascii.eqb_refl.
Qed.

(** The stand-in cipher meets the assumption on the cipher. *)
Lemma sample_cipher_sound (clock : nat -> Z) (key : string) :
  cipher_sound (rt := Sample.runtime clock) key.
Proof.
  intros p. split; [|done].
  cbn [decryptCryptoJSAES encryptCryptoJSAES Sample.runtime].
  unfold Sample.decrypt, Sample.encrypt.
  rewrite <- (expect_prefix ("sealed:" ++ key ++ ":") p) at 1.
  by rewrite !JsonFacts.app_assoc_string.
Qed.

(** What [persistSessionData] followed by [getSessionFromCookie] returns
    under a cipher that inverts: what the codec reads in the text it
    wrote, or null when it reads nothing. *)
Lemma persist_then_get_sound {rt : Runtime} (cs : CookieStoreConfig) (w : World)
    (d : obj) :
  cipher_sound (encryptionKey cs) ->
  (persist_then_get cs d w).1
  = Return match JSON_parse (JSON_stringify (VObj d)) with
           | Some v => v
           | None => VNull
           end.
Proof.
  intros Hcipher. destruct cs as [key name], w as [en jr tk mn tr].
  cbn [encryptionKey] in Hcipher.
  destruct (Hcipher (JSON_stringify (VObj d))) as [Hdec Hne].
  unfold persist_then_get. run.
  rewrite lookup_insert_eq. cbn [present].
  destruct (String.eqb _ "") eqn:E; [by apply String.eqb_eq in E|].
  rewrite Hdec. by destruct (JSON_parse _).
Qed.




(** * Further properties of the code *)

(** ** The session entity: main mapping and flash values together *)

Lemma own_js_set_ne (o : obj) (k k' : string) (v : value) :
  k <> k' -> own (js_set o k v) k' = own o k'.
Proof.
  intros Hne. unfold js_set.
  destruct (own o k); [by apply own_put_ne|].
  destruct (String.eqb k "__proto__"); [done|by apply own_put_ne].
Qed.

Lemma set_data (k : string) (v : value) (s : Session) :
  data (set k v s)
  = match v with
    | VNull | VUndef => js_delete (data s) k
    | _ => js_set (data s) k v
    end.
Proof. by destruct v. Qed.

Lemma own_set_ne (s : Session) (k k' : string) (v : value) :
  k <> k' -> own (data (set k v s)) k' = own (data s) k'.
Proof.
  intros Hne. rewrite set_data.
  destruct v; first [by apply own_js_delete_ne | by apply own_js_set_ne].
Qed.

Lemma js_delete_absent (o : obj) (k : string) : own o k = None -> js_delete o k = o.
Proof.
  induction o as [|[k' v] o IH]; cbn; [done|].
  destruct (String.eqb k k'); [done|]. intros H. by rewrite IH.
Qed.

Lemma put_same (o : obj) (k : string) (v : value) : own o k = Some v -> put o k v = o.
Proof.
  induction o as [|[k' v'] o IH]; cbn; [done|].
  destruct (String.eqb k k') eqn:E.
  - by intros [= ->].
  - intros H. by rewrite IH.
Qed.

(** X1: [set(k, v)] with a value that is neither null nor undefined,
    under a key other than [__proto__], makes [get(k)] return [v]; that
    read changes nothing, and whatever is flashed under [k] stays where
    it is. *)
Theorem set_then_get (s : Session) (k : string) (v : value) :
  v <> VNull -> v <> VUndef -> k <> "__proto__" ->
  get k (set k v s) = Some (v, set k v s).
Proof.
  intros Hnull Hundef Hproto.
  assert (data (set k v s) = put (data s) k v) as Hdata.
  { rewrite set_data, js_set_ordinary by done. by destruct v. }
  unfold get, js_in, js_get. by rewrite Hdata, own_put_eq.
Qed.

Lemma set_then_get_witness :
  let s := mkSession Sample.old Sample.fresh in
  VStr "a@b.com" <> VNull /\ VStr "a@b.com" <> VUndef /\ "email" <> "__proto__" /\
  get "email" (set "email" (VStr "a@b.com") s)
  = Some (VStr "a@b.com", set "email" (VStr "a@b.com") s).
Proof.
  intros s.
  assert (VStr "a@b.com" <> VNull) as H1 by discriminate.
  assert (VStr "a@b.com" <> VUndef) as H2 by discriminate.
  assert ("email" <> "__proto__") as H3 by discriminate.
  repeat (split; [assumption|]).
  exact (set_then_get s "email" (VStr "a@b.com") H1 H2 H3).
Defined.

(** X2: [set(k, null)] and [set(k, undefined)] remove [k] from the main
    mapping only.  For a key that no plain object inherits and that is
    not [_flash] itself, [has(k)] afterwards tells exactly whether [k] is
    flashed: false when it is not, still true when it is. *)
Theorem set_null_then_has (s : Session) (k : string) (v : value) (fl : obj) :
  v = VNull \/ v = VUndef ->
  flash_of (data s) = Some fl ->
  k <> "_flash" ->
  inherited k = false ->
  has k (set k v s) = Some (js_in k fl).
Proof.
  intros Hv Hfl Hne Hinh.
  assert (data (set k v s) = js_delete (data s) k) as Hdata
    by (by destruct Hv as [-> | ->]).
  unfold has. rewrite Hdata. unfold js_in at 1.
  rewrite own_js_delete_eq, Hinh.
  assert (flash_of (js_delete (data s) k) = Some fl) as ->; [|done].
  apply flash_of_own. rewrite own_js_delete_ne by done. by apply flash_of_own.
Qed.

Lemma set_null_then_has_witness :
  let s := mkSession Sample.old Sample.live in
  (VNull = VNull \/ VNull = VUndef) /\
  flash_of (data s) = Some [] /\
  "email" <> "_flash" /\
  inherited "email" = false /\
  has "email" (set "email" VNull s) = Some (js_in "email" []).
Proof.
  intros s.
  assert (VNull = VNull \/ VNull = VUndef) as H1 by (by left).
  assert (flash_of (data s) = Some []) as H2 by reflexivity.
  assert ("email" <> "_flash") as H3 by discriminate.
  assert (inherited "email" = false) as H4 by reflexivity.
  repeat (split; [assumption|]).
  exact (set_null_then_has s "email" VNull [] H1 H2 H3 H4).
Defined.



(** X4: [get] of a key that is neither in the main mapping nor flashed
    returns undefined and leaves the session exactly as it was. *)
Theorem get_missing_key (s : Session) (k : string) (fl : obj) :
  flash_of (data s) = Some fl ->
  js_in k (data s) = false ->
  js_in k fl = false ->
  get k s = Some (VUndef, s).
Proof.
  intros Hfl Hk Hkfl. destruct s as [i d]. cbn [data sid] in *.
  apply js_in_false in Hkfl as [Hown Hinh].
  unfold get. cbn [data sid]. rewrite Hk, Hfl.
  unfold js_get. rewrite Hown, Hinh.
  rewrite js_delete_absent by done.
  rewrite put_same; [done|by apply flash_of_own].
Qed.

Lemma get_missing_key_witness :
  let s := mkSession Sample.old Sample.live in
  flash_of (data s) = Some [] /\
  js_in "cart" (data s) = false /\
  js_in "cart" [] = false /\
  get "cart" s = Some (VUndef, s).
Proof.
  intros s.
  assert (flash_of (data s) = Some []) as H1 by reflexivity.
  assert (js_in "cart" (data s) = false) as H2 by reflexivity.
  assert (js_in "cart" [] = false) as H3 by reflexivity.
  repeat (split; [assumption|]).
  exact (get_missing_key s "cart" [] H1 H2 H3).
Defined.

(** X5: [flash(k, v2)] after [flash(k, v1)] overwrites: for a key that is
    not [in] the main mapping, the next [get(k)] returns [v2]. *)
Theorem flash_overwrites (s : Session) (k : string) (v1 v2 : value) (fl : obj) :
  flash_of (data s) = Some fl ->
  js_in k (data s) = false ->
  exists s1 s2 s3,
    flash k v1 s = Some s1 /\ flash k v2 s1 = Some s2 /\
    get k s2 = Some (v2, s3).
Proof.
  intros Hfl Hk.
  pose proof (absent_not_flash _ _ _ Hfl Hk) as Hne.
  destruct (get_flashed s k v1 fl Hfl Hk) as [H1 _].
  set (s1 := mkSession (sid s) (put (data s) "_flash" (VObj (put fl k v1)))) in *.
  assert (flash_of (data s1) = Some (put fl k v1)) as Hfl1 by apply flash_of_put.
  assert (js_in k (data s1) = false) as Hk1
    by (subst s1; cbn [data]; by rewrite js_in_put_flash).
  destruct (get_flashed s1 k v2 _ Hfl1 Hk1) as [H2 H3].
  eauto 10.
Qed.

Lemma flash_overwrites_witness :
  let s := mkSession Sample.old Sample.live in
  flash_of (data s) = Some [] /\
  js_in "message" (data s) = false /\
  exists s1 s2 s3,
    flash "message" (VStr "saved") s = Some s1 /\
    flash "message" (VStr "saved twice") s1 = Some s2 /\
    get "message" s2 = Some (VStr "saved twice", s3).
Proof.
  intros s.
  assert (flash_of (data s) = Some []) as H1 by reflexivity.
  assert (js_in "message" (data s) = false) as H2 by reflexivity.
  repeat (split; [assumption|]).
  exact (flash_overwrites s "message" (VStr "saved") (VStr "saved twice") [] H1 H2).
Defined.



(** X7: a name that every plain object inherits ([toString],
    [constructor], ...) counts as present: [has] answers true for it on
    any session, and a value flashed under it cannot be read back, since
    [get] finds the name [in] the main mapping and returns the inherited
    member, leaving the flash entry untouched. *)
Theorem inherited_name_shadows_flash (s : Session) (k : string) (v : value)
    (fl : obj) :
  inherited k = true ->
  own (data s) k = None ->
  flash_of (data s) = Some fl ->
  has k s = Some true /\
  exists s1,
    flash k v s = Some s1 /\
    get k s1 = Some (VNative k, s1).
Proof.
  intros Hinh Hown Hfl.
  assert (k <> "_flash") as Hne by (intros ->; discriminate Hinh).
  split.
  - unfold has, js_in. by rewrite Hown, Hinh.
  - eexists. split; [unfold flash; by rewrite Hfl|].
    unfold get, js_in, js_get. cbn [data sid].
    rewrite own_put_ne by done. by rewrite Hown, Hinh.
Qed.

Lemma inherited_name_shadows_flash_witness :
  let s := mkSession Sample.old Sample.live in
  inherited "toString" = true /\
  own (data s) "toString" = None /\
  flash_of (data s) = Some [] /\
  has "toString" s = Some true /\
  exists s1,
    flash "toString" (VStr "hello") s = Some s1 /\
    get "toString" s1 = Some (VNative "toString", s1).
Proof.
  intros s.
  assert (inherited "toString" = true) as H1 by reflexivity.
  assert (own (data s) "toString" = None) as H2 by reflexivity.
  assert (flash_of (data s) = Some []) as H3 by reflexivity.
  repeat (split; [assumption|]).
  exact (inherited_name_shadows_flash s "toString" (VStr "hello") [] H1 H2 H3).
Defined.

(** X25: the reserved fields are ordinary keys for [set]: after
    [set('_flash', null)] (or undefined) the flash mapping is gone, and
    with it [flash] fails on every key, as do [get] and [has] on every
    key that is not [in] the main mapping (a TypeError, the receiver
    being undefined); keys of the main mapping are still read. *)
Theorem set_can_remove_flash (s : Session) (v : value) :
  v = VNull \/ v = VUndef ->
  let s' := set "_flash" v s in
  (forall k x, flash k x s' = None) /\
  (forall k, js_in k (data s') = false -> get k s' = None /\ has k s' = None) /\
  (forall k, js_in k (data s') = true ->
     get k s' = Some (js_get (data s') k, s') /\ has k s' = Some true).
Proof.
  intros Hv s'.
  assert (flash_of (data s') = None) as Hfl.
  { subst s'. unfold flash_of, js_get. rewrite set_data.
    destruct Hv as [-> | ->]; by rewrite own_js_delete_eq. }
  split; [|split].
  - intros k x. unfold flash. by rewrite Hfl.
  - intros k Hk. unfold get, has. by rewrite Hk, Hfl.
  - intros k Hk. unfold get, has. by rewrite Hk.
Qed.

Lemma set_can_remove_flash_witness :
  let s := mkSession Sample.old Sample.live in
  (VNull = VNull \/ VNull = VUndef) /\
  (forall k x, flash k x (set "_flash" VNull s) = None) /\
  (forall k, js_in k (data (set "_flash" VNull s)) = false ->
     get k (set "_flash" VNull s) = None /\ has k (set "_flash" VNull s) = None) /\
  (forall k, js_in k (data (set "_flash" VNull s)) = true ->
     get k (set "_flash" VNull s)
     = Some (js_get (data (set "_flash" VNull s)) k, set "_flash" VNull s) /\
     has k (set "_flash" VNull s) = Some true).
Proof.
  intros s.
  assert (VNull = VNull \/ VNull = VUndef) as H1 by (by left).
  split; [assumption|].
  exact (set_can_remove_flash s VNull H1).
Defined.

(** ** The handlers: creating and missing sessions *)

(** Splits on the tests a handler makes, after running it as far as it
    goes. *)
Ltac cases :=
  repeat (run; cbv [set];
          match goal with
          | |- context [match ?x with _ => _ end] =>
              lazymatch x with
              | context [match _ with _ => _ end] => fail
              | _ => destruct x eqn:?
              end
          end);
  run.

(** X8: the [createSession] handler computes the expiry from the second
    clock reading of the call.  When that instant is a time value (as it
    is when no window is configured) it returns a session holding the
    default fields only (empty [_flash], [_delete] false, [_accessed]
    and [_expire] from clock readings taken during the call): on a keyed
    store it generates the identifier, creates the store entry under it
    and sets the transport cookie to it; on a cookie-embedded store the
    identifier is empty and neither the store nor any cookie is touched
    (the payload cookie is written by [storeState] only).  When the
    instant is beyond the range of [Date] the handler throws and has
    written nothing. *)
Theorem createSession_effects {rt : Runtime} (cfg : Config) (w : World) :
  let te := S (ticks w) in
  exists w',
    if expiry_fits cfg te then
      exists ta,
        (te <= ta < ticks w')%nat /\
        match store cfg with
        | Keyed =>
            let id := nanoid (minted w) in
            createSession cfg w
            = (Return (mkSession id (defaults cfg (Date_now ta) (Date_now te))), w') /\
            entries w'
            = <[id := defaults cfg (Date_now (ticks w)) (Date_now te)]> (entries w) /\
            jar w' = <[sessionCookieName cfg := id]> (jar w) /\
            trace w' = (trace w ++
                        [ StoreCreate id
                            (defaults cfg (Date_now (ticks w)) (Date_now te));
                          CookieSet (sessionCookieName cfg) id ])%list
        | CookieEmbedded _ =>
            createSession cfg w
            = (Return (mkSession "" (defaults cfg (Date_now ta) (Date_now te))), w') /\
            entries w' = entries w /\ jar w' = jar w /\ trace w' = trace w /\
            minted w' = minted w
        end
    else
      createSession cfg w = (Throw, w') /\
      entries w' = entries w /\ jar w' = jar w /\ trace w' = trace w /\
      minted w' = minted w.
Proof.
  destruct cfg as [[|cs] exp name], w as [en jr tk mn tr].
  all: unfold defaults, expiry_fits;
    cbn [store sessionCookieName expireAfterSeconds ticks minted trace entries jar].
  all: run; destruct (window exp) as [n|]; run.
  all: try (destruct (time_value _); run).
  all: cbv [set]; run.
  all: eexists.
  all: first
    [ by repeat split
    | exists (S (S tk));
      (split; [|split; [reflexivity|]; cbn [entries jar trace minted];
                rewrite <- ?app_assoc; by repeat split]);
      cbn [ticks]; lia
    | exists (S tk);
      (split; [|split; [reflexivity|]; cbn [entries jar trace minted];
                rewrite <- ?app_assoc; by repeat split]);
      cbn [ticks]; lia ].
Qed.

(** X9: when there is no session to load, [fetchSession] returns null and
    changes nothing: no store entry, no cookie, no identifier generated,
    the clock not read.  That is so on a keyed store for a transport
    cookie that is missing, empty or names an unknown identifier, and on
    a cookie-embedded store for a payload cookie that is missing, empty
    or holds the text of a falsy value. *)
Theorem fetchSession_nothing_is_null {rt : Runtime} (cfg : Config) (w : World) :
  nothing_to_fetch cfg w ->
  exists w',
    fetchSession cfg w = (Return None, w') /\
    entries w' = entries w /\ jar w' = jar w /\
    ticks w' = ticks w /\ minted w' = minted w.
Proof.
  unfold nothing_to_fetch.
  destruct cfg as [[|[key pname]] exp name], w as [en jr tk mn tr].
  all: cbn [store sessionCookieName entries jar ticks minted encryptionKey
            sessionDataCookieName].
  - intros [Hc|(id & Hc & Hd)]; run; rewrite Hc; run; [eauto 10|].
    rewrite Hd. eauto 10.
  - intros [Hc|(c & p & v & Hc & Hdec & Hparse & Hv)]; run; rewrite Hc;
      [eauto 10|].
    rewrite Hdec, Hparse. run. rewrite Hv. cbn [negb]. eauto 10.
Qed.

Lemma fetchSession_nothing_is_null_witness :
  let rt := Sample.runtime Sample.clock in
  let cfg := Sample.keyed (Some 3600) in
  let w := mkWorld ∅ {[ "session" := Sample.old ]} 0 0 [] in
  nothing_to_fetch cfg w /\
  exists w',
    fetchSession cfg w = (Return None, w') /\
    entries w' = entries w /\ jar w' = jar w /\
    ticks w' = ticks w /\ minted w' = minted w.
Proof.
  intros rt cfg w.
  assert (nothing_to_fetch cfg w) as H1
    by (right; exists Sample.old; split; reflexivity).
  split; [assumption|].
  exact (fetchSession_nothing_is_null cfg w H1).
Defined.

(** ** The handlers: what every fetched session satisfies *)

Lemma js_get_js_set_eq (o : obj) (k : string) (v : value) :
  k <> "__proto__" -> js_get (js_set o k v) k = v.
Proof.
  intros Hne. rewrite js_set_ordinary by done. unfold js_get.
  by rewrite own_put_eq.
Qed.

Lemma accessed_stamped {rt : Runtime} (s : Session) (t : Z) :
  js_get (data (set "_accessed" (VStr (toISOString t)) s)) "_accessed"
  = VStr (toISOString t).
Proof. cbn [set data]. by apply js_get_js_set_eq. Qed.

(** X10: whenever [fetchSession] returns a session, be it the loaded one
    or a replacement for an expired one, its [_accessed] is the instant
    of a clock reading taken during the call and the transport cookie
    holds its identifier.  On a keyed store the store has an entry under
    that identifier, which is not empty when the generator yields none
    that is; on a cookie-embedded store the identifier is the empty
    string and the keyed entries are untouched. *)
Theorem fetchSession_result_invariant {rt : Runtime} (cfg : Config)
    (w w' : World) (s : Session) :
  fetchSession cfg w = (Return (Some s), w') ->
  (exists t, (ticks w <= t < ticks w')%nat /\
             js_get (data s) "_accessed" = VStr (toISOString (Date_now t))) /\
  jar w' !! sessionCookieName cfg = Some (sid s) /\
  match store cfg with
  | Keyed =>
      is_Some (entries w' !! sid s) /\
      (nanoid (minted w) <> "" -> sid s <> "")
  | CookieEmbedded _ => sid s = "" /\ entries w' = entries w
  end.
Proof.
  destruct cfg as [[|[key pname]] exp name], w as [en jr tk mn tr].
  all: cbn [store sessionCookieName ticks minted entries].
  all: revert s w'; cases; intros fetched after H; try discriminate H;
    injection H as <- <-.
  all: cbn [ticks jar entries sid data].
  all: rewrite ?js_get_js_set_eq by done.
  all: (split; [eexists; split; [|reflexivity]; lia|]).
  all: (split; [apply lookup_insert_eq|]).
  all: try (split; [by rewrite ?lookup_insert_eq; eauto|]).
  all: try (split; reflexivity).
  all: try (intros Hgen; exact Hgen).
  all: intros _; match goal with
                 | H : present _ = Some ?x |- ?x <> "" =>
                     apply present_Some in H as [_ H]; intros ->; discriminate H
                 end.
Qed.

Lemma fetchSession_result_invariant_witness :
  let rt := Sample.runtime Sample.clock in
  let cfg := Sample.keyed (Some 3600) in
  let w := Sample.stored Sample.expired in
  exists s w',
    fetchSession cfg w = (Return (Some s), w') /\
    (exists t, (ticks w <= t < ticks w')%nat /\
               js_get (data s) "_accessed" = VStr (toISOString (Date_now t))) /\
    jar w' !! sessionCookieName cfg = Some (sid s) /\
    is_Some (entries w' !! sid s) /\
    (nanoid (minted w) <> "" -> sid s <> "").
Proof.
  intros rt cfg w.
  assert (exists s w', fetchSession cfg w = (Return (Some s), w')) as (s & w' & H)
    by (vm_compute; eexists _, _; reflexivity).
  exists s, w'. split; [exact H|].
  exact (fetchSession_result_invariant cfg w w' s H).
Defined.

(** ** The handlers: what they leave alone *)

(** X11: on the keyed store a handler touches no entry but its own: the
    entry of an identifier [id'] that is neither the session's (for
    [storeState]), nor the one the transport cookie names (for
    [fetchSession]), nor the one the generator yields next, is the same
    after [storeState], [fetchSession] and [createSession] as before. *)
Theorem handlers_leave_other_entries {rt : Runtime} (cfg : Config) (w : World)
    (id' : string) :
  id' <> nanoid (minted w) ->
  (forall s rotate,
     id' <> sid s ->
     entries (storeState cfg (Some s) rotate w).2 !! id' = entries w !! id') /\
  (present (jar w !! sessionCookieName cfg) <> Some id' ->
   entries (fetchSession cfg w).2 !! id' = entries w !! id') /\
  entries (createSession cfg w).2 !! id' = entries w !! id'.
Proof.
  intros Hgen.
  destruct cfg as [[|[key pname]] exp name], w as [en jr tk mn tr].
  all: cbn [minted sessionCookieName jar entries] in *.
  all: split; [intros [i d] [|] Hs; cbn [sid] in Hs|split; [intros Hc|]].
  all: cases; cbn [snd entries].
  all: repeat first [rewrite lookup_insert_ne by congruence
                    |rewrite lookup_delete_ne by congruence].
  all: reflexivity.
Qed.

Lemma handlers_leave_other_entries_witness :
  let rt := Sample.runtime Sample.clock in
  let cfg := Sample.keyed (Some 3600) in
  let w := mkWorld {[ Sample.old := Sample.expired; "someone-else" := Sample.live ]}
             {[ "session" := Sample.old ]} 0 0 [] in
  "someone-else" <> nanoid (minted w) /\
  "someone-else" <> Sample.old /\
  present (jar w !! sessionCookieName cfg) <> Some "someone-else" /\
  entries (storeState cfg (Some (mkSession Sample.old Sample.doomed)) true w).2
    !! "someone-else" = Some Sample.live /\
  entries (fetchSession cfg w).2 !! "someone-else" = Some Sample.live /\
  entries (createSession cfg w).2 !! "someone-else" = Some Sample.live.
Proof.
  intros rt cfg w.
  assert ("someone-else" <> nanoid (minted w)) as H1 by (vm_compute; discriminate).
  assert ("someone-else" <> Sample.old) as H2 by discriminate.
  assert (present (jar w !! sessionCookieName cfg) <> Some "someone-else") as H3
    by (vm_compute; discriminate).
  repeat (split; [assumption|]).
  assert (entries w !! "someone-else" = Some Sample.live) as Hw
    by (vm_compute; reflexivity).
  destruct (handlers_leave_other_entries cfg w "someone-else" H1)
    as (Hstore & Hfetch & Hcreate).
  split; [exact (eq_trans (Hstore (mkSession Sample.old Sample.doomed) true H2) Hw)|].
  split; [exact (eq_trans (Hfetch H3) Hw)|exact (eq_trans Hcreate Hw)].
Defined.

(** X12: with a cookie-embedded store the handlers never use the keyed
    store and never generate an identifier: after [fetchSession],
    [storeState] and [createSession] the entries and the count of
    generated identifiers are what they were. *)
Theorem embedded_handlers_leave_store_alone {rt : Runtime} (cfg : Config)
    (cs : CookieStoreConfig) (w : World) :
  store cfg = CookieEmbedded cs ->
  (forall s rotate,
     entries (storeState cfg s rotate w).2 = entries w /\
     minted (storeState cfg s rotate w).2 = minted w) /\
  (entries (fetchSession cfg w).2 = entries w /\
   minted (fetchSession cfg w).2 = minted w) /\
  (entries (createSession cfg w).2 = entries w /\
   minted (createSession cfg w).2 = minted w).
Proof.
  destruct cfg as [st exp name], w as [en jr tk mn tr], cs as [key pname].
  cbn [store]. intros ->.
  split; [intros [[i d]|] [|]|split].
  all: cases; cbn [snd entries minted]; split; reflexivity.
Qed.

Lemma embedded_handlers_leave_store_alone_witness :
  let rt := Sample.runtime Sample.clock in
  let cfg := Sample.embedded (Some 3600) in
  let cs := mkCookieStore "secret" "session_data" in
  let w := Sample.sealed Sample.expired in
  store cfg = CookieEmbedded cs /\
  (forall s rotate,
     entries (storeState cfg s rotate w).2 = entries w /\
     minted (storeState cfg s rotate w).2 = minted w) /\
  (entries (fetchSession cfg w).2 = entries w /\
   minted (fetchSession cfg w).2 = minted w) /\
  (entries (createSession cfg w).2 = entries w /\
   minted (createSession cfg w).2 = minted w).
Proof.
  intros rt cfg cs w.
  assert (store cfg = CookieEmbedded cs) as H1 by reflexivity.
  split; [assumption|].
  exact (embedded_handlers_leave_store_alone cfg cs w H1).
Defined.

(** ** The handlers in sequence: from one request to the next *)

Lemma storeState_keeps_keyed {rt : Runtime} (cfg : Config) (s : Session)
    (w : World) :
  store cfg = Keyed ->
  truthy (js_get (data s) "_delete") = false ->
  storeState cfg (Some s) false w
  = (Return tt,
     mkWorld (<[sid s := data s]> (entries w)) (jar w) (ticks w) (minted w)
       (trace w ++ [StorePersist (sid s) (data s)])).
Proof.
  destruct cfg as [st exp name], s as [i d], w as [en jr tk mn tr].
  cbn [store sid data]. intros -> Hd. run. by rewrite Hd.
Qed.

Lemma storeState_keeps_embedded {rt : Runtime} (cfg : Config)
    (cs : CookieStoreConfig) (s : Session) (rotate : bool) (w : World) :
  store cfg = CookieEmbedded cs ->
  truthy (js_get (data s) "_delete") = false ->
  storeState cfg (Some s) rotate w
  = (Return tt,
     mkWorld (entries w)
       (<[sessionDataCookieName cs
          := encryptCryptoJSAES (JSON_stringify (VObj (data s))) (encryptionKey cs)]>
          (jar w))
       (ticks w) (minted w)
       (trace w ++
        [CookieSet (sessionDataCookieName cs)
           (encryptCryptoJSAES (JSON_stringify (VObj (data s))) (encryptionKey cs))])).
Proof.
  destruct cfg as [st exp name], s as [i d], w as [en jr tk mn tr],
    cs as [key pname].
  cbn [store sid data]. intros -> Hd. destruct rotate; run; by rewrite Hd.
Qed.

Lemma renewed_own {rt : Runtime} (cfg : Config) (d : obj) (t ta : Z) (k : string) :
  k <> "_expire" -> k <> "_accessed" ->
  own (renewed cfg d t ta) k = own d k.
Proof.
  intros H1 H2. unfold renewed. by rewrite !own_js_set_ne.
Qed.

(** Reading a key of the main mapping other than [_expire] and
    [_accessed] gives the same on the renewed data as on the data. *)
Lemma get_renewed {rt : Runtime} (cfg : Config) (i : string) (d : obj)
    (t ta : Z) (k : string) :
  k <> "_expire" -> k <> "_accessed" ->
  js_in k d = true ->
  get k (mkSession i (renewed cfg d t ta))
  = Some (js_get d k, mkSession i (renewed cfg d t ta)).
Proof.
  intros H1 H2 Hin. unfold get, js_in, js_get in *. cbn [data].
  rewrite renewed_own by done. by rewrite Hin.
Qed.

(** X13: on a keyed store, what [storeState] persisted the next
    [fetchSession] returns.  For a session named by the transport cookie,
    not marked for deletion and not expired at the time of the fetch,
    and a new expiry instant that is a time value, [storeState] followed
    by [fetchSession] returns a session with the same identifier whose
    data are the persisted ones with [_expire] renewed and [_accessed]
    stamped; [get] of any other key of the main mapping returns the
    value that was there. *)
Theorem storeState_then_fetchSession {rt : Runtime} (cfg : Config)
    (s : Session) (w : World) :
  store cfg = Keyed ->
  present (jar w !! sessionCookieName cfg) = Some (sid s) ->
  truthy (js_get (data s) "_delete") = false ->
  valid_at (data s) (Date_now (ticks w)) = true ->
  let t := (ticks w + validity_readings (data s))%nat in
  expiry_fits cfg t = true ->
  exists fetched w',
    (storeState cfg (Some s) false ;;; fetchSession cfg) w
    = (Return (Some fetched), w') /\
    sid fetched = sid s /\
    (exists ta, renewal_of cfg (data s) (data fetched) (Date_now t) (Date_now ta)) /\
    (forall k, k <> "_expire" -> k <> "_accessed" -> js_in k (data s) = true ->
       get k fetched = Some (js_get (data s) k, fetched)).
Proof.
  intros Hst Hc Hd Hvalid t Hfit.
  unfold bind. rewrite (storeState_keeps_keyed cfg s w Hst Hd).
  set (w1 := mkWorld _ _ _ _ _).
  assert (loaded cfg w1 (sid s) (data s)) as Hload.
  { unfold loaded. rewrite Hst. split; [exact Hc|apply lookup_insert_eq]. }
  rewrite (fetchSession_valid_fits cfg w1 (sid s) (data s) Hload Hvalid Hfit).
  eexists _, _. split; [reflexivity|]. split; [done|].
  split; [eexists; apply renewed_renewal|].
  intros k H1 H2 Hin. by apply get_renewed.
Qed.

Lemma storeState_then_fetchSession_witness :
  let rt := Sample.runtime Sample.clock in
  let cfg := Sample.keyed (Some 3600) in
  let s := set "cart" (VNum (NInt 3)) (mkSession Sample.old Sample.live) in
  let w := Sample.stored Sample.live in
  store cfg = Keyed /\
  present (jar w !! sessionCookieName cfg) = Some (sid s) /\
  truthy (js_get (data s) "_delete") = false /\
  valid_at (data s) (Date_now (ticks w)) = true /\
  expiry_fits cfg (ticks w + validity_readings (data s)) = true /\
  exists fetched w',
    (storeState cfg (Some s) false ;;; fetchSession cfg) w
    = (Return (Some fetched), w') /\
    sid fetched = sid s /\
    (exists ta, renewal_of cfg (data s) (data fetched)
                  (Date_now (ticks w + validity_readings (data s))) (Date_now ta)) /\
    (forall k, k <> "_expire" -> k <> "_accessed" -> js_in k (data s) = true ->
       get k fetched = Some (js_get (data s) k, fetched)).
Proof.
  intros rt cfg s w.
  assert (store cfg = Keyed) as H1 by reflexivity.
  assert (present (jar w !! sessionCookieName cfg) = Some (sid s)) as H2
    by reflexivity.
  assert (truthy (js_get (data s) "_delete") = false) as H3 by reflexivity.
  assert (valid_at (data s) (Date_now (ticks w)) = true) as H4
    by (vm_compute; reflexivity).
  assert (expiry_fits cfg (ticks w + validity_readings (data s)) = true) as H5
    by (vm_compute; reflexivity).
  repeat (split; [assumption|]).
  exact (storeState_then_fetchSession cfg s w H1 H2 H3 H4 H5).
Defined.

(** A payload cookie that holds the sealed text of [d] loads as [d],
    when the codec reads back the text it writes for [d]. *)
Lemma loaded_sealed {rt : Runtime} (cfg : Config) (cs : CookieStoreConfig)
    (w : World) (d : obj) :
  store cfg = CookieEmbedded cs ->
  cipher_sound (encryptionKey cs) ->
  JSON_parse (JSON_stringify (VObj d)) = Some (VObj d) ->
  jar w !! sessionDataCookieName cs
  = Some (encryptCryptoJSAES (JSON_stringify (VObj d)) (encryptionKey cs)) ->
  loaded cfg w "" d.
Proof.
  intros Hst Hcipher Hcodec Hjar. unfold loaded. rewrite Hst. split; [done|].
  destruct (Hcipher (JSON_stringify (VObj d))) as [Hdec Hne].
  exists (encryptCryptoJSAES (JSON_stringify (VObj d)) (encryptionKey cs)),
         (JSON_stringify (VObj d)).
  split; [|split; [exact Hdec|exact Hcodec]].
  rewrite Hjar. cbn [present].
  destruct (String.eqb _ "") eqn:E; [by apply String.eqb_eq in E|done].
Qed.

(** X14: the same from one request to the next on a cookie-embedded
    store, when decrypting inverts encrypting under the configured key
    and the codec reads back the text it writes for the data.  For data
    not marked for deletion and not expired at the time of the fetch,
    and a new expiry instant that is a time value, [storeState] followed
    by [fetchSession] returns a session with the empty identifier whose
    data are the persisted ones with [_expire] renewed and [_accessed]
    stamped. *)
Theorem storeState_then_fetchSession_embedded {rt : Runtime} (cfg : Config)
    (cs : CookieStoreConfig) (s : Session) (rotate : bool) (w : World) :
  store cfg = CookieEmbedded cs ->
  cipher_sound (encryptionKey cs) ->
  JSON_parse (JSON_stringify (VObj (data s))) = Some (VObj (data s)) ->
  truthy (js_get (data s) "_delete") = false ->
  valid_at (data s) (Date_now (ticks w)) = true ->
  let t := (ticks w + validity_readings (data s))%nat in
  expiry_fits cfg t = true ->
  exists fetched w',
    (storeState cfg (Some s) rotate ;;; fetchSession cfg) w
    = (Return (Some fetched), w') /\
    sid fetched = "" /\
    (exists ta, renewal_of cfg (data s) (data fetched) (Date_now t) (Date_now ta)) /\
    (forall k, k <> "_expire" -> k <> "_accessed" -> js_in k (data s) = true ->
       get k fetched = Some (js_get (data s) k, fetched)).
Proof.
  intros Hst Hcipher Hcodec Hd Hvalid t Hfit.
  unfold bind.
  rewrite (storeState_keeps_embedded cfg cs s rotate w Hst Hd).
  set (w1 := mkWorld _ _ _ _ _).
  assert (loaded cfg w1 "" (data s)) as Hload.
  { apply (loaded_sealed cfg cs); [done..|]. apply lookup_insert_eq. }
  rewrite (fetchSession_valid_fits cfg w1 "" (data s) Hload Hvalid Hfit).
  eexists _, _. split; [reflexivity|]. split; [done|].
  split; [eexists; apply renewed_renewal|].
  intros k H1 H2 Hin. by apply get_renewed.
Qed.

Lemma storeState_then_fetchSession_embedded_witness :
  let rt := Sample.runtime Sample.clock in
  let cfg := Sample.embedded (Some 3600) in
  let cs := mkCookieStore "secret" "session_data" in
  let s := set "cart" (VNum (NInt 3)) (mkSession "" Sample.live) in
  let w := Sample.world0 in
  store cfg = CookieEmbedded cs /\
  cipher_sound (encryptionKey cs) /\
  JSON_parse (JSON_stringify (VObj (data s))) = Some (VObj (data s)) /\
  truthy (js_get (data s) "_delete") = false /\
  valid_at (data s) (Date_now (ticks w)) = true /\
  expiry_fits cfg (ticks w + validity_readings (data s)) = true /\
  exists fetched w',
    (storeState cfg (Some s) false ;;; fetchSession cfg) w
    = (Return (Some fetched), w') /\
    sid fetched = "" /\
    (exists ta, renewal_of cfg (data s) (data fetched)
                  (Date_now (ticks w + validity_readings (data s))) (Date_now ta)) /\
    (forall k, k <> "_expire" -> k <> "_accessed" -> js_in k (data s) = true ->
       get k fetched = Some (js_get (data s) k, fetched)).
Proof.
  intros rt cfg cs s w.
  assert (store cfg = CookieEmbedded cs) as H1 by reflexivity.
  assert (cipher_sound (encryptionKey cs)) as H2
    by apply sample_cipher_sound.
  assert (JSON_parse (JSON_stringify (VObj (data s))) = Some (VObj (data s))) as H3
    by (vm_compute; reflexivity).
  assert (truthy (js_get (data s) "_delete") = false) as H4 by reflexivity.
  assert (valid_at (data s) (Date_now (ticks w)) = true) as H5
    by (vm_compute; reflexivity).
  assert (expiry_fits cfg (ticks w + validity_readings (data s)) = true) as H6
    by (vm_compute; reflexivity).
  repeat (split; [assumption|]).
  exact (storeState_then_fetchSession_embedded cfg cs s false w H1 H2 H3 H4 H5 H6).
Defined.

(** X15: a session deleted in one request is gone in the next: after
    [deleteSession()] on the entity, [storeState], with or without
    rotation, followed by [fetchSession] returns null on either kind of
    store, and a keyed store has no entry left under the identifier. *)
Theorem deleteSession_then_next_fetch {rt : Runtime} (cfg : Config)
    (s : Session) (rotate : bool) (w : World) :
  exists w',
    (storeState cfg (Some (deleteSession s)) rotate ;;; fetchSession cfg) w
    = (Return None, w') /\
    match store cfg with
    | Keyed => entries w' !! sid s = None
    | CookieEmbedded _ => True
    end.
Proof.
  destruct cfg as [[|[key pname]] exp name], s as [i d], w as [en jr tk mn tr].
  all: unfold deleteSession; cbn [data sid store].
  all: destruct rotate; run; rewrite js_get_js_set_eq by done; cbn [truthy]; run.
  all: rewrite lookup_delete_eq; cbn [present]; run.
  all: eexists; split; [reflexivity|]; cbn [entries]; try done.
  - destruct (decide (nanoid mn = i)) as [->|Hne].
    + apply lookup_delete_eq.
    + by rewrite lookup_delete_ne, !lookup_insert_ne, lookup_delete_eq.
  - apply lookup_delete_eq.
Qed.

(** X16: after a rotation the session lives on under the new identifier
    only.  On a keyed store, for a session not marked for deletion and
    not expired, with a generator that yields a non-empty identifier and
    a new expiry instant that is a time value, [storeState] with
    rotation followed by [fetchSession] returns the session under the
    generated identifier with the same data renewed, and the old
    identifier, when different, has no entry. *)
Theorem rotation_then_next_fetch {rt : Runtime} (cfg : Config) (s : Session)
    (w : World) :
  store cfg = Keyed ->
  nanoid (minted w) <> "" ->
  truthy (js_get (data s) "_delete") = false ->
  valid_at (data s) (Date_now (ticks w)) = true ->
  let t := (ticks w + validity_readings (data s))%nat in
  expiry_fits cfg t = true ->
  exists fetched w',
    (storeState cfg (Some s) true ;;; fetchSession cfg) w
    = (Return (Some fetched), w') /\
    sid fetched = nanoid (minted w) /\
    (exists ta, renewal_of cfg (data s) (data fetched) (Date_now t) (Date_now ta)) /\
    (nanoid (minted w) <> sid s -> entries w' !! sid s = None).
Proof.
  intros Hst Hgen Hd Hvalid t Hfit.
  assert (exists w1,
            storeState cfg (Some s) true w = (Return tt, w1) /\
            loaded cfg w1 (nanoid (minted w)) (data s) /\
            ticks w1 = ticks w /\
            (nanoid (minted w) <> sid s -> entries w1 !! sid s = None))
    as (w1 & Hstore & Hload & Hticks & Hold).
  { unfold loaded. destruct cfg as [st exp name], s as [i d], w as [en jr tk mn tr].
    cbn [store sid data minted ticks sessionCookieName] in *. subst st.
    run. rewrite Hd. eexists. split; [reflexivity|]. cbn [jar entries ticks].
    split; [split|split; [done|]].
    - rewrite lookup_insert_eq. cbn [present].
      destruct (String.eqb _ "") eqn:E; [by apply String.eqb_eq in E|done].
    - apply lookup_insert_eq.
    - intros Hne. by rewrite !lookup_insert_ne, lookup_delete_eq. }
  subst t. rewrite <- Hticks in Hvalid, Hfit.
  unfold bind. rewrite Hstore.
  rewrite (fetchSession_valid_fits cfg w1 _ (data s) Hload Hvalid Hfit).
  rewrite Hticks.
  eexists _, _. split; [reflexivity|]. split; [done|].
  split; [eexists; apply renewed_renewal|]. exact Hold.
Qed.

Lemma rotation_then_next_fetch_witness :
  let rt := Sample.runtime Sample.clock in
  let cfg := Sample.keyed (Some 3600) in
  let s := mkSession Sample.old Sample.live in
  let w := Sample.stored Sample.live in
  store cfg = Keyed /\
  nanoid (minted w) <> "" /\
  truthy (js_get (data s) "_delete") = false /\
  valid_at (data s) (Date_now (ticks w)) = true /\
  expiry_fits cfg (ticks w + validity_readings (data s)) = true /\
  exists fetched w',
    (storeState cfg (Some s) true ;;; fetchSession cfg) w
    = (Return (Some fetched), w') /\
    sid fetched = nanoid (minted w) /\
    (exists ta, renewal_of cfg (data s) (data fetched)
                  (Date_now (ticks w + validity_readings (data s))) (Date_now ta)) /\
    (nanoid (minted w) <> sid s -> entries w' !! sid s = None).
Proof.
  intros rt cfg s w.
  assert (store cfg = Keyed) as H1 by reflexivity.
  assert (nanoid (minted w) <> "") as H2 by (vm_compute; discriminate).
  assert (truthy (js_get (data s) "_delete") = false) as H3 by reflexivity.
  assert (valid_at (data s) (Date_now (ticks w)) = true) as H4
    by (vm_compute; reflexivity).
  assert (expiry_fits cfg (ticks w + validity_readings (data s)) = true) as H5
    by (vm_compute; reflexivity).
  repeat (split; [assumption|]).
  exact (rotation_then_next_fetch cfg s w H1 H2 H3 H4 H5).
Defined.

(** X17: a created session lasts exactly its window.  On a keyed store
    with a window of [n] seconds, when the runtime reads back the instant
    it printed, [createSession], [storeState] and then [fetchSession]
    return the created identifier if the clock reading of the fetch is
    before the creation reading plus [n] seconds, and a newly generated
    identifier from that instant on.  That is so when the expiry
    instants computed on the way (at creation, and at the fetch for the
    renewal or for the new session) are time values; when one is beyond
    the range of [Date] the sequence throws. *)
Theorem created_session_expires_on_time {rt : Runtime} (cfg : Config)
    (w : World) (n : Z) :
  store cfg = Keyed ->
  expireAfterSeconds cfg = Some n -> n <> 0 ->
  nanoid (minted w) <> "" ->
  Date_parse (toISOString (Date_now (S (ticks w)) + n * 1000))
  = Some (Date_now (S (ticks w)) + n * 1000) ->
  let live := Date_now (3 + ticks w) <? Date_now (S (ticks w)) + n * 1000 in
  let outcome :=
    (s <- createSession cfg ;;
     storeState cfg (Some s) false ;;;
     fetchSession cfg) w in
  if expiry_fits cfg (S (ticks w))
     && expiry_fits cfg (if live then 4 + ticks w else 5 + ticks w)
  then
    exists fetched w',
      outcome = (Return (Some fetched), w') /\
      sid fetched = if live then nanoid (minted w) else nanoid (S (minted w))
  else
    exists w', outcome = (Throw, w').
Proof.
  destruct cfg as [st exp name], w as [en jr tk mn tr].
  unfold expiry_fits. cbn [store expireAfterSeconds minted ticks].
  intros -> -> Hn Hgen Hparse. cbv zeta.
  cbn [window Nat.add]. rewrite (proj2 (Z.eqb_neq n 0) Hn).
  run. cbn [window]. rewrite (proj2 (Z.eqb_neq n 0) Hn). run.
  destruct (time_value (Date_now (S tk) + n * 1000)); cbn [andb]; run; [|eauto].
  cbv [set]. run.
  change (truthy (js_get _ "_delete")) with false. run.
  rewrite lookup_insert_eq. cbn [present].
  destruct (String.eqb (nanoid mn) "") eqn:E; [by apply String.eqb_eq in E|].
  run. rewrite lookup_insert_eq.
  change (js_get _ "_expire")
    with (VStr (toISOString (Date_now (S tk) + n * 1000))).
  run. cbn [Date_getTime]. rewrite Hparse. run.
  destruct (Date_now (S (S (S tk))) <? Date_now (S tk) + n * 1000); run.
  all: unfold window; rewrite ?(proj2 (Z.eqb_neq n 0) Hn); run.
  all: destruct (time_value _); run; cbv [set]; run; eauto.
Qed.

Lemma created_session_expires_on_time_witness :
  let rt := Sample.runtime Sample.clock in
  let cfg := Sample.keyed (Some 2) in
  let w := Sample.world0 in
  store cfg = Keyed /\
  expireAfterSeconds cfg = Some 2 /\ 2 <> 0 /\
  nanoid (minted w) <> "" /\
  Date_parse (toISOString (Date_now (S (ticks w)) + 2 * 1000))
  = Some (Date_now (S (ticks w)) + 2 * 1000) /\
  exists fetched w',
    (s <- createSession cfg ;;
     storeState cfg (Some s) false ;;;
     fetchSession cfg) w
    = (Return (Some fetched), w') /\
    sid fetched
    = if Date_now (3 + ticks w) <? Date_now (S (ticks w)) + 2 * 1000
      then nanoid (minted w)
      else nanoid (S (minted w)).
Proof.
  intros rt cfg w.
  assert (store cfg = Keyed) as H1 by reflexivity.
  assert (expireAfterSeconds cfg = Some 2) as H2 by reflexivity.
  assert (2 <> 0) as H3 by discriminate.
  assert (nanoid (minted w) <> "") as H4 by (vm_compute; discriminate).
  assert (Date_parse (toISOString (Date_now (S (ticks w)) + 2 * 1000))
          = Some (Date_now (S (ticks w)) + 2 * 1000)) as H5
    by (vm_compute; reflexivity).
  repeat (split; [assumption|]).
  exact (created_session_expires_on_time cfg w 2 H1 H2 H3 H4 H5).
Defined.

(** ** The handlers on a cookie-embedded store: edge cases *)

(** X18: on a cookie-embedded store an expired payload is replaced: when
    the validity test answers false on the loaded data, [fetchSession]
    deletes the payload cookie, and no payload cookie is left until
    [storeState] writes one.  When the new expiry instant, computed from
    the clock reading [te], is a time value (as it is when no window is
    configured), it returns a session with the empty identifier holding
    the default fields only; when that instant is beyond the range of
    [Date] it throws. *)
Theorem fetchSession_replaces_expired_payload {rt : Runtime} (cfg : Config)
    (cs : CookieStoreConfig) (w : World) (d : obj) :
  store cfg = CookieEmbedded cs ->
  loaded cfg w "" d ->
  expired_at d (Date_now (ticks w)) = true ->
  let te := (2 + ticks w)%nat in
  exists w',
    present (jar w' !! sessionDataCookieName cs) = None /\
    In (CookieDelete (sessionDataCookieName cs)) (trace w') /\
    if expiry_fits cfg te then
      exists ta,
        fetchSession cfg w
        = (Return (Some (mkSession "" (defaults cfg (Date_now ta) (Date_now te)))),
           w') /\
        (te <= ta < ticks w')%nat
    else
      fetchSession cfg w = (Throw, w').
Proof.
  intros Hst Hload Hexpired. unfold loaded in Hload. rewrite Hst in Hload.
  destruct Hload as (_ & c & p & Hc & Hdec & Hparse).
  unfold expired_at in Hexpired.
  destruct cfg as [st exp name], w as [en jr tk mn tr], cs as [key pname].
  cbn [store ticks jar encryptionKey sessionDataCookieName] in *. subst st.
  unfold defaults, expiry_fits. cbn [expireAfterSeconds Nat.add]. cbv zeta.
  run. rewrite Hc, Hdec, Hparse. cbn [truthy negb]. run.
  destruct (js_get d "_expire") as [| |b|z|e|o|f] eqn:He;
    try discriminate Hexpired.
  all: destruct (Date_getTime _) as [[limit|]|]; try discriminate Hexpired; run.
  all: try (apply negb_true_iff in Hexpired; rewrite Hexpired).
  all: destruct (window exp) as [n|]; run.
  all: try (destruct (time_value _); run).
  all: cbv [set]; run.
  all: eexists; (split; [|split]);
    [ | |first [ reflexivity
               | exists (S (S (S tk))); split; [reflexivity|cbn [ticks]; lia]
               | exists (S (S tk)); split; [reflexivity|cbn [ticks]; lia] ] ].
  all: cbn [jar trace].
  all: first
    [ by rewrite lookup_delete_eq
    | destruct (decide (name = pname)) as [->|Hne];
      [ by rewrite lookup_insert_eq
      | by rewrite lookup_insert_ne, lookup_delete_eq ]
    | rewrite !in_app_iff; cbn; tauto ].
Qed.

Lemma fetchSession_replaces_expired_payload_witness :
  let rt := Sample.runtime Sample.clock in
  let cfg := Sample.embedded (Some 3600) in
  let cs := mkCookieStore "secret" "session_data" in
  let w := Sample.sealed Sample.expired in
  store cfg = CookieEmbedded cs /\
  loaded cfg w "" Sample.expired /\
  expired_at Sample.expired (Date_now (ticks w)) = true /\
  exists w',
    present (jar w' !! sessionDataCookieName cs) = None /\
    In (CookieDelete (sessionDataCookieName cs)) (trace w') /\
    exists ta,
      fetchSession cfg w
      = (Return (Some (mkSession "" (defaults cfg (Date_now ta) (Date_now 2)))), w') /\
      (2 <= ta < ticks w')%nat.
Proof.
  intros rt cfg cs w.
  assert (store cfg = CookieEmbedded cs) as H1 by reflexivity.
  assert (loaded cfg w "" Sample.expired) as H2.
  { split; [reflexivity|].
    exists (Sample.encrypt (Json.stringify (VObj Sample.expired)) "secret"),
           (Json.stringify (VObj Sample.expired)).
    split; [reflexivity|]. split; [reflexivity|]. vm_compute. reflexivity. }
  assert (expired_at Sample.expired (Date_now (ticks w)) = true) as H3
    by (vm_compute; reflexivity).
  repeat (split; [assumption|]).
  exact (fetchSession_replaces_expired_payload cfg cs w Sample.expired H1 H2 H3).
Defined.

(** X19: a payload that decrypts to the text of a truthy value that is no
    object (a number other than 0, a non-empty string, [true]) makes
    [fetchSession] throw: the value passes the validity test, as its
    [_expire] reads undefined, and [reupSession] then assigns a property
    on a primitive (if computing the expiry has not thrown before).
    Nothing has been written by then. *)
Theorem fetchSession_primitive_payload_throws {rt : Runtime} (cfg : Config)
    (cs : CookieStoreConfig) (w : World) (c p : string) (v : value) :
  store cfg = CookieEmbedded cs ->
  present (jar w !! sessionDataCookieName cs) = Some c ->
  decryptCryptoJSAES c (encryptionKey cs) = Some p ->
  JSON_parse p = Some v ->
  truthy v = true ->
  (exists b, v = VBool b) \/ (exists n, v = VNum n) \/ (exists t, v = VStr t) ->
  exists w',
    fetchSession cfg w = (Throw, w') /\
    entries w' = entries w /\ jar w' = jar w /\
    trace w' = (trace w ++ [CookieGet (sessionDataCookieName cs)])%list.
Proof.
  intros Hst Hc Hdec Hparse Hv Hprim.
  destruct cfg as [st exp name], w as [en jr tk mn tr], cs as [key pname].
  cbn [store jar entries trace encryptionKey sessionDataCookieName] in *.
  subst st. run. rewrite Hc, Hdec, Hparse. run. rewrite Hv. cbn [negb].
  destruct Hprim as [[b ->]|[[n ->]|[t ->]]].
  all: run; destruct (window exp); run; try (destruct (time_value _); run); eauto.
Qed.

Lemma fetchSession_primitive_payload_throws_witness :
  let rt := Sample.runtime Sample.clock in
  let cfg := Sample.embedded (Some 3600) in
  let cs := mkCookieStore "secret" "session_data" in
  let w := mkWorld ∅ {[ "session_data" := "sealed:secret:5" ]} 0 0 [] in
  store cfg = CookieEmbedded cs /\
  present (jar w !! sessionDataCookieName cs) = Some "sealed:secret:5" /\
  decryptCryptoJSAES "sealed:secret:5" (encryptionKey cs) = Some "5" /\
  JSON_parse "5" = Some (VNum (NInt 5)) /\
  truthy (VNum (NInt 5)) = true /\
  ((exists b, VNum (NInt 5) = VBool b) \/ (exists n, VNum (NInt 5) = VNum n) \/
   (exists t, VNum (NInt 5) = VStr t)) /\
  exists w',
    fetchSession cfg w = (Throw, w') /\
    entries w' = entries w /\ jar w' = jar w /\
    trace w' = (trace w ++ [CookieGet (sessionDataCookieName cs)])%list.
Proof.
  intros rt cfg cs w.
  assert (store cfg = CookieEmbedded cs) as H1 by reflexivity.
  assert (present (jar w !! sessionDataCookieName cs) = Some "sealed:secret:5")
    as H2 by reflexivity.
  assert (decryptCryptoJSAES "sealed:secret:5" (encryptionKey cs) = Some "5")
    as H3 by reflexivity.
  assert (JSON_parse "5" = Some (VNum (NInt 5))) as H4 by reflexivity.
  assert (truthy (VNum (NInt 5)) = true) as H5 by reflexivity.
  assert ((exists b, VNum (NInt 5) = VBool b) \/
          (exists n, VNum (NInt 5) = VNum n) \/
          (exists t, VNum (NInt 5) = VStr t)) as H6 by (right; left; eauto).
  repeat (split; [assumption|]).
  exact (fetchSession_primitive_payload_throws cfg cs w _ _ _ H1 H2 H3 H4 H5 H6).
Defined.

(** X26: stored data whose [_expire] is an object that gives no
    primitive (an own [toString] that is no function, say) make
    [fetchSession] throw: [sessionValid] reads the clock and then fails
    to make a [Date] of it.  Nothing has been written by then and no
    identifier generated. *)
Theorem fetchSession_undatable_expire_throws {rt : Runtime} (cfg : Config)
    (w : World) (id : string) (d o : obj) :
  loaded cfg w id d ->
  js_get d "_expire" = VObj o ->
  to_primitive o = Throw ->
  exists w',
    fetchSession cfg w = (Throw, w') /\
    entries w' = entries w /\ jar w' = jar w /\ minted w' = minted w /\
    ticks w' = S (ticks w).
Proof.
  intros Hload Hexp Hprim. unfold loaded in Hload.
  destruct cfg as [[|[key pname]] exp name], w as [en jr tk mn tr].
  all: cbn [store sessionCookieName entries jar ticks minted encryptionKey
            sessionDataCookieName] in *.
  - destruct Hload as [Hc Hd]. run. rewrite Hc. run. rewrite Hd, Hexp. run.
    cbn [Date_getTime]. rewrite Hprim. eauto 10.
  - destruct Hload as (-> & c & p & Hc & Hdec & Hparse).
    run. rewrite Hc, Hdec, Hparse. cbn [truthy negb]. run. rewrite Hexp. run.
    cbn [Date_getTime]. rewrite Hprim. eauto 10.
Qed.

Lemma fetchSession_undatable_expire_throws_witness :
  let rt := Sample.runtime Sample.clock in
  let cfg := Sample.keyed (Some 3600) in
  let o := [ ("toString", VNum (NInt 1)) ] in
  let d := [ ("_flash", VObj []); ("_accessed", VStr "2023-11-14T22:13:20.000Z");
             ("_expire", VObj o); ("_delete", VBool false) ] in
  let w := Sample.stored d in
  loaded cfg w Sample.old d /\
  js_get d "_expire" = VObj o /\
  to_primitive o = Throw /\
  exists w',
    fetchSession cfg w = (Throw, w') /\
    entries w' = entries w /\ jar w' = jar w /\ minted w' = minted w /\
    ticks w' = S (ticks w).
Proof.
  intros rt cfg o d w.
  assert (loaded cfg w Sample.old d) as H1 by (split; reflexivity).
  assert (js_get d "_expire" = VObj o) as H2 by reflexivity.
  assert (to_primitive o = Throw) as H3 by reflexivity.
  repeat (split; [assumption|]).
  exact (fetchSession_undatable_expire_throws cfg w Sample.old d o H1 H2 H3).
Defined.

Lemma fetchSession_embedded_absent {rt : Runtime} (cfg : Config)
    (cs : CookieStoreConfig) (w : World) :
  store cfg = CookieEmbedded cs ->
  present (jar w !! sessionDataCookieName cs) = None ->
  exists w', fetchSession cfg w = (Return None, w').
Proof.
  destruct cfg as [st exp name], w as [en jr tk mn tr], cs as [key pname].
  cbn [store jar sessionDataCookieName]. intros -> Hc. run. rewrite Hc. eauto.
Qed.

(** X20: on a cookie-embedded store configured with one name for the
    transport cookie and the payload cookie, a [fetchSession] that
    returns the loaded session (the data valid, the new expiry instant a
    time value) overwrites the payload with the empty identifier it
    writes back, so that the next [fetchSession] finds no session and
    returns null. *)
Theorem same_cookie_name_loses_payload {rt : Runtime} (cfg : Config)
    (cs : CookieStoreConfig) (w : World) (d : obj) :
  store cfg = CookieEmbedded cs ->
  sessionCookieName cfg = sessionDataCookieName cs ->
  loaded cfg w "" d ->
  valid_at d (Date_now (ticks w)) = true ->
  expiry_fits cfg (ticks w + validity_readings d) = true ->
  exists s w1 w2,
    fetchSession cfg w = (Return (Some s), w1) /\
    jar w1 !! sessionDataCookieName cs = Some "" /\
    fetchSession cfg w1 = (Return None, w2).
Proof.
  intros Hst Hname Hload Hvalid Hfit.
  pose proof (fetchSession_valid_fits cfg w "" d Hload Hvalid Hfit) as Hfetch.
  set (w1 := mkWorld _ _ _ _ _) in Hfetch.
  assert (jar w1 !! sessionDataCookieName cs = Some "") as Hgone
    by (subst w1; cbn [jar]; rewrite Hname; apply lookup_insert_eq).
  destruct (fetchSession_embedded_absent cfg cs w1 Hst) as [w2 Hnext];
    [by rewrite Hgone|].
  eauto 10.
Qed.

Lemma same_cookie_name_loses_payload_witness :
  let rt := Sample.runtime Sample.clock in
  let cs := mkCookieStore "secret" "session" in
  let cfg := mkConfig (CookieEmbedded cs) (Some 3600) "session" in
  let w := mkWorld ∅ {[ "session" := Sample.encrypt (Json.stringify (VObj Sample.fresh)) "secret" ]}
             0 0 [] in
  store cfg = CookieEmbedded cs /\
  sessionCookieName cfg = sessionDataCookieName cs /\
  loaded cfg w "" Sample.fresh /\
  valid_at Sample.fresh (Date_now (ticks w)) = true /\
  expiry_fits cfg (ticks w + validity_readings Sample.fresh) = true /\
  exists s w1 w2,
    fetchSession cfg w = (Return (Some s), w1) /\
    jar w1 !! sessionDataCookieName cs = Some "" /\
    fetchSession cfg w1 = (Return None, w2).
Proof.
  intros rt cs cfg w.
  assert (store cfg = CookieEmbedded cs) as H1 by reflexivity.
  assert (sessionCookieName cfg = sessionDataCookieName cs) as H2 by reflexivity.
  assert (loaded cfg w "" Sample.fresh) as H3.
  { split; [reflexivity|].
    exists (Sample.encrypt (Json.stringify (VObj Sample.fresh)) "secret"),
           (Json.stringify (VObj Sample.fresh)).
    split; [reflexivity|]. split; [reflexivity|]. vm_compute. reflexivity. }
  assert (valid_at Sample.fresh (Date_now (ticks w)) = true) as H4 by reflexivity.
  assert (expiry_fits cfg (ticks w + validity_readings Sample.fresh) = true) as H5
    by (vm_compute; reflexivity).
  repeat (split; [assumption|]).
  exact (same_cookie_name_loses_payload cfg cs w Sample.fresh H1 H2 H3 H4 H5).
Defined.

(** ** The cookie store by itself *)

(** X21: [getSessionFromCookie] only reads, and never throws: whatever
    the payload cookie holds (nothing, the empty string, text that does
    not decrypt or does not parse), it returns a value, and the cookies
    are what they were, reading the payload cookie being its only
    call. *)
Theorem getSessionFromCookie_only_reads {rt : Runtime} (cs : CookieStoreConfig)
    (w : World) :
  exists v,
    CookieStore_getSessionFromCookie cs w
    = (Return v,
       mkWorld (entries w) (jar w) (ticks w) (minted w)
         (trace w ++ [CookieGet (sessionDataCookieName cs)])).
Proof.
  destruct cs as [key pname], w as [en jr tk mn tr]. run.
  destruct (present (jr !! pname)) as [c|]; [|eauto].
  destruct (decryptCryptoJSAES c key) as [p|]; [|eauto].
  destruct (JSON_parse p); eauto.
Qed.

(** X22: after [deleteSession(cookies)] on the cookie store,
    [getSessionFromCookie] finds no session: it returns null, whatever
    the payload cookie held before. *)
Theorem CookieStore_delete_then_get {rt : Runtime} (cs : CookieStoreConfig)
    (w : World) :
  ((CookieStore_deleteSession cs ;;; CookieStore_getSessionFromCookie cs) w).1
  = Return VNull.
Proof.
  destruct cs as [key pname], w as [en jr tk mn tr]. run.
  by rewrite lookup_delete_eq.
Qed.

Lemma getSessionFromCookie_sealed {rt : Runtime} (cs : CookieStoreConfig)
    (w : World) (d : obj) :
  cipher_sound (encryptionKey cs) ->
  JSON_parse (JSON_stringify (VObj d)) = Some (VObj d) ->
  jar w !! sessionDataCookieName cs
  = Some (encryptCryptoJSAES (JSON_stringify (VObj d)) (encryptionKey cs)) ->
  (CookieStore_getSessionFromCookie cs w).1 = Return (VObj d).
Proof.
  intros Hcipher Hcodec Hjar. destruct cs as [key pname], w as [en jr tk mn tr].
  cbn [encryptionKey sessionDataCookieName jar] in *.
  destruct (Hcipher (JSON_stringify (VObj d))) as [Hdec Hne].
  run. rewrite Hjar. cbn [present].
  destruct (String.eqb _ "") eqn:E; [by apply String.eqb_eq in E|].
  by rewrite Hdec, Hcodec.
Qed.

Lemma CookieStore_persistSessionData_sets {rt : Runtime}
    (cs : CookieStoreConfig) (d : obj) (w : World) :
  CookieStore_persistSessionData cs d w
  = (Return tt,
     mkWorld (entries w)
       (<[sessionDataCookieName cs
          := encryptCryptoJSAES (JSON_stringify (VObj d)) (encryptionKey cs)]>
          (jar w))
       (ticks w) (minted w)
       (trace w ++
        [CookieSet (sessionDataCookieName cs)
           (encryptCryptoJSAES (JSON_stringify (VObj d)) (encryptionKey cs))])).
Proof. by destruct cs, w. Qed.

Lemma CookieStore_createSession_sets {rt : Runtime}
    (cs : CookieStoreConfig) (d : obj) (w : World) :
  CookieStore_createSession cs d w = CookieStore_persistSessionData cs d w.
Proof. reflexivity. Qed.

(** X23: the cookie store keeps the last data written.  When decrypting
    inverts encrypting under the configured key, and for data the codec
    reads back from the text it writes for them:
    [createSession(cookies, d1)] followed by [getSessionFromCookie]
    returns [d1], and a [persistSessionData(cookies, d2)] in between
    makes it return [d2]. *)
Theorem CookieStore_last_write_wins {rt : Runtime} (cs : CookieStoreConfig)
    (w : World) (d1 d2 : obj) :
  cipher_sound (encryptionKey cs) ->
  JSON_parse (JSON_stringify (VObj d1)) = Some (VObj d1) ->
  JSON_parse (JSON_stringify (VObj d2)) = Some (VObj d2) ->
  ((CookieStore_createSession cs d1 ;;;
    CookieStore_getSessionFromCookie cs) w).1
  = Return (VObj d1) /\
  ((CookieStore_createSession cs d1 ;;;
    CookieStore_persistSessionData cs d2 ;;;
    CookieStore_getSessionFromCookie cs) w).1
  = Return (VObj d2).
Proof.
  intros Hcipher H1 H2. unfold bind.
  rewrite CookieStore_createSession_sets, CookieStore_persistSessionData_sets.
  split.
  - apply getSessionFromCookie_sealed; [done..|]. apply lookup_insert_eq.
  - rewrite CookieStore_persistSessionData_sets.
    apply getSessionFromCookie_sealed; [done..|]. apply lookup_insert_eq.
Qed.

Lemma CookieStore_last_write_wins_witness :
  let rt := Sample.runtime Sample.clock in
  let cs := mkCookieStore "secret" "session_data" in
  cipher_sound (encryptionKey cs) /\
  JSON_parse (JSON_stringify (VObj Sample.fresh)) = Some (VObj Sample.fresh) /\
  JSON_parse (JSON_stringify (VObj Sample.live)) = Some (VObj Sample.live) /\
  ((CookieStore_createSession cs Sample.fresh ;;;
    CookieStore_getSessionFromCookie cs) Sample.world0).1
  = Return (VObj Sample.fresh) /\
  ((CookieStore_createSession cs Sample.fresh ;;;
    CookieStore_persistSessionData cs Sample.live ;;;
    CookieStore_getSessionFromCookie cs) Sample.world0).1
  = Return (VObj Sample.live).
Proof.
  intros rt cs.
  assert (cipher_sound (encryptionKey cs)) as H1
    by apply sample_cipher_sound.
  assert (JSON_parse (JSON_stringify (VObj Sample.fresh)) = Some (VObj Sample.fresh))
    as H2 by (vm_compute; reflexivity).
  assert (JSON_parse (JSON_stringify (VObj Sample.live)) = Some (VObj Sample.live))
    as H3 by (vm_compute; reflexivity).
  repeat (split; [assumption|]).
  exact (CookieStore_last_write_wins cs Sample.world0 Sample.fresh Sample.live
           H1 H2 H3).
Defined.

(** ** Sliding expiration *)

Lemma js_get_js_set_ne (o : obj) (k k' : string) (v : value) :
  k <> k' -> js_get (js_set o k v) k' = js_get o k'.
Proof. intros Hne. unfold js_get. by rewrite own_js_set_ne. Qed.

(** X24: the window slides with every fetch.  On a keyed store with a
    window of [n] seconds, when the runtime reads back the instant it
    printed: a [fetchSession] that finds the session valid, then
    [storeState], then a second [fetchSession] return the same
    identifier if the clock reading of the second fetch is before the
    renewal reading of the first plus [n] seconds, whatever [_expire]
    was stored before, and a newly generated identifier from that
    instant on.  That is so when the expiry instants computed on the way
    (at the renewal, and at the second fetch for the next renewal or for
    the new session) are time values; when one is beyond the range of
    [Date] the sequence throws. *)
Theorem fetch_slides_the_window {rt : Runtime} (cfg : Config) (w : World)
    (id : string) (d : obj) (n : Z) :
  store cfg = Keyed ->
  expireAfterSeconds cfg = Some n -> n <> 0 ->
  loaded cfg w id d ->
  valid_at d (Date_now (ticks w)) = true ->
  truthy (js_get d "_delete") = false ->
  let renewal := (ticks w + validity_readings d)%nat in
  Date_parse (toISOString (Date_now renewal + n * 1000))
  = Some (Date_now renewal + n * 1000) ->
  let live := Date_now (renewal + 2) <? Date_now renewal + n * 1000 in
  let outcome :=
    (first <- fetchSession cfg ;;
     storeState cfg first false ;;;
     fetchSession cfg) w in
  if expiry_fits cfg renewal
     && expiry_fits cfg (if live then renewal + 3 else renewal + 4)
  then
    exists fetched w',
      outcome = (Return (Some fetched), w') /\
      sid fetched = if live then id else nanoid (minted w)
  else
    exists w', outcome = (Throw, w').
Proof.
  intros Hst Hexp Hn Hload Hvalid Hd renewal Hparse.
  unfold loaded in Hload. rewrite Hst in Hload. destruct Hload as [Hc Hen].
  apply present_Some in Hc as [Hc Hid].
  unfold valid_at in Hvalid. unfold validity_readings in renewal.
  destruct cfg as [st exp name], w as [en jr tk mn tr].
  unfold expiry_fits.
  cbn [store expireAfterSeconds sessionCookieName ticks minted jar entries] in *.
  subst st exp. cbv zeta. run. rewrite Hc. cbn [present] in *.
  destruct (String.eqb id "") eqn:Eid; [discriminate Hid|]. run. rewrite Hen.
  assert (forall e a,
            truthy (js_get (js_set (js_set d "_expire" e) "_accessed" a) "_delete")
            = false) as Hd'
    by (intros e a; by rewrite !js_get_js_set_ne).
  assert (forall e a,
            js_get (js_set (js_set d "_expire" e) "_accessed" a) "_expire" = e)
    as He'
    by (intros e a; by rewrite js_get_js_set_ne, js_get_js_set_eq).
  unfold window in *. rewrite (proj2 (Z.eqb_neq n 0) Hn).
  destruct (js_get d "_expire") as [| |b|z|e|o|f] eqn:He;
    subst renewal; rewrite ?Nat.add_0_r, ?Nat.add_1_r in *.
  all: try (destruct (Date_getTime _) as [[limit|]|] eqn:Hg;
            try discriminate Hvalid; run; rewrite Hvalid).
  all: run.
  all: rewrite ?(Nat.add_comm _ 2), ?(Nat.add_comm _ 3), ?(Nat.add_comm _ 4);
    cbn [Nat.add].
  all: match goal with
       | |- context [time_value ?x && _] => destruct (time_value x)
       end; cbn [andb]; run; [|eauto].
  all: cbv [set]; run.
  all: rewrite Hd'; run; rewrite lookup_insert_eq; cbn [present]; rewrite Eid; run.
  all: rewrite lookup_insert_eq, He'; run; cbn [Date_getTime]; rewrite Hparse; run.
  all: match goal with
       | |- context [Date_now ?a <? ?b] => destruct (Date_now a <? b)
       end; run.
  all: destruct (time_value _); run; cbv [set]; run; eauto.
Qed.

Lemma fetch_slides_the_window_witness :
  let rt := Sample.runtime Sample.clock in
  let cfg := Sample.keyed (Some 3600) in
  let w := Sample.stored Sample.live in
  store cfg = Keyed /\
  expireAfterSeconds cfg = Some 3600 /\ 3600 <> 0 /\
  loaded cfg w Sample.old Sample.live /\
  valid_at Sample.live (Date_now (ticks w)) = true /\
  truthy (js_get Sample.live "_delete") = false /\
  Date_parse (toISOString (Date_now (ticks w + validity_readings Sample.live)
                           + 3600 * 1000))
  = Some (Date_now (ticks w + validity_readings Sample.live) + 3600 * 1000) /\
  exists fetched w',
    (first <- fetchSession cfg ;;
     storeState cfg first false ;;;
     fetchSession cfg) w
    = (Return (Some fetched), w') /\
    sid fetched
    = if Date_now (ticks w + validity_readings Sample.live + 2)
         <? Date_now (ticks w + validity_readings Sample.live) + 3600 * 1000
      then Sample.old
      else nanoid (minted w).
Proof.
  intros rt cfg w.
  assert (store cfg = Keyed) as H1 by reflexivity.
  assert (expireAfterSeconds cfg = Some 3600) as H2 by reflexivity.
  assert (3600 <> 0) as H3 by discriminate.
  assert (loaded cfg w Sample.old Sample.live) as H4 by (split; reflexivity).
  assert (valid_at Sample.live (Date_now (ticks w)) = true) as H5
    by (vm_compute; reflexivity).
  assert (truthy (js_get Sample.live "_delete") = false) as H6 by reflexivity.
  assert (Date_parse (toISOString (Date_now (ticks w + validity_readings Sample.live)
                                   + 3600 * 1000))
          = Some (Date_now (ticks w + validity_readings Sample.live) + 3600 * 1000))
    as H7 by (vm_compute; reflexivity).
  repeat (split; [assumption|]).
  exact (fetch_slides_the_window cfg w Sample.old Sample.live 3600
           H1 H2 H3 H4 H5 H6 H7).
Defined.
